(** * smartbch: the eth_* JSON-RPC facade (rpc/api/eth_api.go)

    A shallow embedding of the [ethAPI] methods of [rpc/api/eth_api.go].
    Every method is a straight-line program over the calls of the
    [sbchapi.BackendService] interface; the programs are kept apart from
    the backend that answers them, so that statements can speak both of
    what a method returns and of which backend calls it makes. *)

From Stdlib Require Import ZArith NArith Strings.Byte.
From stdpp Require Import base option list vector sorting countable gmap strings.

Local Open Scope Z_scope.

(** ** Bytes, addresses and hashes *)

Lemma byte_to_N_inj (a b : byte) : Byte.to_N a = Byte.to_N b → a = b.
Proof.
  intros E. apply (f_equal Byte.of_N) in E.
  rewrite !Byte.of_to_N in E. by injection E.
Qed.

#[global] Instance byte_eq_dec : EqDecision byte.
Proof.
  refine (fun a b => cast_if (decide (Byte.to_N a = Byte.to_N b)));
    abstract (first [ by apply byte_to_N_inj | congruence ]).
Defined.

#[global] Instance byte_countable : Countable byte :=
  inj_countable Byte.to_N Byte.of_N Byte.of_to_N.

(** [common.AddressLength] and [common.HashLength] of go-ethereum. *)
Definition AddressLength : nat := 20.
Definition HashLength : nat := 32.

(** [common.Address] is [[20]byte], [common.Hash] is [[32]byte]. *)
Abbreviation Address := (vec byte AddressLength).
Abbreviation Hash := (vec byte HashLength).
Abbreviation bytes := (list byte).

(** The zero values [common.Address{}] and [common.Hash{}]. *)
Definition zeroAddress : Address := vreplicate AddressLength x00.
Definition zeroHash : Hash := vreplicate HashLength x00.

(** [a[k]] as an unsigned 8-bit number. *)
Definition byte_at (a : Address) (k : nat) : N :=
  match vec_to_list a !! k with
  | Some b => Byte.to_N b
  | None => 0%N
  end.

(** ** eth_accounts: the comparison closure and the sort *)

(** The closure handed to [sort.Slice] in [Accounts]:
    [for k := 0; k < common.AddressLength; k++], with [n] the number of
    iterations that remain. *)
Fixpoint less_loop (x y : Address) (k n : nat) : bool :=
  match n with
  | O => false
  | S n' =>
      if (byte_at x k <? byte_at y k)%N then true
      else if (byte_at y k <? byte_at x k)%N then false
      else less_loop x y (S k) n'
  end.

Definition less (x y : Address) : bool := less_loop x y 0 AddressLength.

(** [sort.Slice] is Go's library sort. It is embedded as the insertion
    sort the library itself runs on short slices; [sort_Slice_unique]
    below shows that on a registry's addresses every sorting procedure
    has the same output. *)
Fixpoint sort_insert {A} (lt : A → A → bool) (x : A) (l : list A) : list A :=
  match l with
  | [] => [x]
  | y :: l' => if lt x y then x :: y :: l' else y :: sort_insert lt x l'
  end.

Definition sort_Slice {A} (lt : A → A → bool) (l : list A) : list A :=
  foldl (fun acc x => sort_insert lt x acc) [] l.

(** ** Errors, blocks, transactions and request arguments *)

(** Go [error] values. The facade tells errors apart only by comparing
    them with the sentinels of [moeingevm/types]; every other error is
    an opaque value carrying its message. *)
Inductive error : Type :=
| ErrAccNotFound
| ErrBlockNotFound
| errorString (msg : string).

#[global] Instance error_eq_dec : EqDecision error.
Proof. solve_decision. Defined.

(** [errors.New]: never one of the sentinels. *)
Definition errors_New (msg : string) : error := errorString msg.

(** [types.Block] of moeingevm, as far as the facade reads it. *)
Record Block : Type := mkBlock {
  Number : Z;                    (* int64 *)
  BlockHash : Hash;
  Transactions : list Hash;
}.

(** [gethtypes.Transaction] (a legacy transaction). *)
Record GethTx : Type := mkGethTx {
  tx_nonce : Z;                  (* uint64 *)
  tx_to : option Address;
  tx_value : Z;                  (* *big.Int *)
  tx_gas : Z;                    (* uint64 *)
  tx_gasPrice : Z;               (* *big.Int *)
  tx_data : bytes;
  tx_sig : Z * Z * Z;            (* V, R, S *)
}.

(** [gethtypes.NewTransaction(nonce, to, amount, gasLimit, gasPrice, data)]:
    an unsigned legacy transaction with a recipient. *)
Definition NewTransaction (nonce : Z) (to : Address) (amount gasLimit gasPrice : Z)
    (data : bytes) : GethTx :=
  {| tx_nonce := nonce; tx_to := Some to; tx_value := amount;
     tx_gas := gasLimit; tx_gasPrice := gasPrice; tx_data := data;
     tx_sig := (0, 0, 0) |}.

(** [rpctypes.CallArgs]: every field is a pointer, [None] is [nil]. *)
Record CallArgs : Type := mkCallArgs {
  ca_From : option Address;
  ca_To : option Address;
  ca_Gas : option Z;             (* *hexutil.Uint64 *)
  ca_GasPrice : option Z;        (* *hexutil.Big *)
  ca_Value : option Z;           (* *hexutil.Big *)
  ca_Data : option bytes;
}.

(** [rpctypes.SendTxArgs]: [From] is a value, the rest are pointers. *)
Record SendTxArgs : Type := mkSendTxArgs {
  sa_From : Address;
  sa_To : option Address;
  sa_Gas : option Z;
  sa_GasPrice : option Z;
  sa_Value : option Z;
  sa_Nonce : option Z;           (* *hexutil.Uint64 *)
  sa_Data : option bytes;
  sa_Input : option bytes;
}.

Definition set_Nonce (args : SendTxArgs) (n : option Z) : SendTxArgs :=
  {| sa_From := sa_From args; sa_To := sa_To args; sa_Gas := sa_Gas args;
     sa_GasPrice := sa_GasPrice args; sa_Value := sa_Value args;
     sa_Nonce := n; sa_Data := sa_Data args; sa_Input := sa_Input args |}.

(** ** Constants *)

(** [DefaultGasPrice] and [DefaultRPCGasLimit] of eth_api.go. *)
Definition DefaultGasPrice : Z := 20000000000.
Definition DefaultRPCGasLimit : Z := 10000000.

Definition LatestBlockNumber : Z := -1.
Definition EarliestBlockNumber : Z := 0.

(** Conversions to [uint64] and [uint32] wrap around. *)
Definition to_uint64 (z : Z) : Z := z mod 2 ^ 64.
Definition to_uint32 (z : Z) : Z := z mod 2 ^ 32.

(** ** What the facade takes from other packages

    Types and functions that eth_api.go uses and that are declared
    elsewhere: response shaping and argument conversion of the same
    package, [ethutils], [ebp], go-ethereum's [crypto] and [common]. A
    [(value, error)] result is a pair, as in Go; a pointer that may be
    [nil] is an [option]. *)
Class Externals : Type := {
  StoredTx : Type;               (* types.Transaction of moeingevm *)
  RpcTx : Type;                  (* rpctypes.Transaction *)
  RpcBlock : Type;               (* the block response object *)
  RpcReceipt : Type;             (* the receipt response object *)
  PrivKey : Type;                (* *ecdsa.PrivateKey *)
  Hex : Address → string;        (* common.Address.Hex *)
  StatusIsFailure : Z → bool;    (* ebp.StatusIsFailure *)
  toCallErr : Z → bytes → error;
  blockToRpcResp : option Block → list StoredTx → option RpcBlock;
  txToRpcResp : option StoredTx → option RpcTx;
  txToReceiptRpcResp : option StoredTx → option RpcReceipt;
  createGethTxFromSendTxArgs : SendTxArgs → option GethTx * option error;
  SignTx : option GethTx → Z → PrivKey → option GethTx * option error;
  EncodeTx : option GethTx → bytes * option error;
  DecodeTx : bytes → option GethTx * option error;
  tx_Hash : GethTx → Hash;       (* the Hash method of gethtypes.Transaction *)
  HexToPrivKey : string → PrivKey * option error;
  PubkeyToAddress : PrivKey → Address;
}.

(** ** The backend interface and programs over it *)

Section Facade.
Context `{Lib : Externals}.

(** The methods of [sbchapi.BackendService] that the facade calls, each
    indexed by the type of its result. *)
Inductive BackendE : Type → Type :=
| backend_LatestHeight : BackendE Z
| backend_ChainId : BackendE Z
| backend_GetBalance (addr : Address) (height : Z) : BackendE (option Z * option error)
| backend_GetCode (addr : Address) (height : Z) : BackendE (bytes * option error)
| backend_BlockByHash (hash : Hash) : BackendE (option Block * option error)
| backend_BlockByNumber (height : Z) : BackendE (option Block * option error)
| backend_CurrentBlock : BackendE (option Block * option error)
| backend_GetTxListByHeight (height : Z) : BackendE (list StoredTx * option error)
| backend_GetTransaction (hash : Hash) : BackendE (option StoredTx * option error)
| backend_GetNonce (addr : Address) : BackendE (Z * option error)
| backend_SendRawTx (data : bytes) : BackendE (Hash * option error)
| backend_Call (tx : option GethTx) (sender : Address) : BackendE (Z * bytes)
| backend_EstimateGas (tx : option GethTx) (sender : Address) : BackendE (Z * bytes * Z).

(** A method body: it returns, panics (a [nil] dereference or an index
    out of range), or calls the backend and goes on with the answer. *)
Inductive Prog (A : Type) : Type :=
| Ret (a : A)
| Panic
| Vis {X : Type} (e : BackendE X) (k : X → Prog A).

#[global] Arguments Ret {A} a.
#[global] Arguments Panic {A}.
#[global] Arguments Vis {A X} e k.

Fixpoint Prog_bind {A B} (f : A → Prog B) (p : Prog A) : Prog B :=
  match p with
  | Ret a => f a
  | Panic => Panic
  | Vis e k => Vis e (fun x => Prog_bind f (k x))
  end.

#[global] Instance Prog_mret : MRet Prog := @Ret.
#[global] Instance Prog_mbind : MBind Prog := @Prog_bind.

(** One backend call. *)
Definition call {X} (e : BackendE X) : Prog X := Vis e Ret.

(** ** The API object *)

(** [ethAPI]: the backend is reached through [call]; the logger has no
    part in any result. *)
Record ethAPI : Type := mkEthAPI {
  accounts : gmap Address PrivKey;   (* only for test *)
}.

(** [loadTestAccounts]: a key that does not parse is logged and skipped.
    The second component is what was handed to [logger.Error]. *)
Definition loadTestAccounts (testKeys : list string)
    : gmap Address PrivKey * list (string * error) :=
  foldl (fun '(accs, logged) testKey =>
           let '(key, err) := HexToPrivKey testKey in
           match err with
           | None => (<[PubkeyToAddress key := key]> accs, logged)
           | Some e => (accs, logged ++ [(testKey, e)])
           end)
        (∅, []) testKeys.

Definition newEthAPI (testKeys : list string) : ethAPI :=
  {| accounts := (loadTestAccounts testKeys).1 |}.

(** Go visits the keys of a map in an order that it does not specify and
    that changes from one loop to the next: [order] is the order in which
    one run of [for addr := range api.accounts] visits them. *)
Definition range_order (api : ethAPI) (order : list Address) : Prop :=
  order ≡ₚ (map_to_list (accounts api)).*1.

(** [Accounts], for a loop that visits the registry in [order]. *)
Definition Accounts (api : ethAPI) (order : list Address)
    : list Address * option error :=
  let addrs := foldl (fun addrs addr => addrs ++ [addr]) [] order in
  (sort_Slice less addrs, None).

(** ** Methods that read chain state *)

Definition BlockNumber : Prog (Z * option error) :=
  h ← call backend_LatestHeight;
  Ret (to_uint64 h, None).

Definition GasPrice (api : ethAPI) : option Z := Some 0.

Definition GetBalance (addr : Address) (blockNum : Z) : Prog (option Z * option error) :=
  '(b, err) ← call (backend_GetBalance addr LatestBlockNumber);
  match err with
  | Some e =>
      if decide (e = ErrAccNotFound) then Ret (Some 0, None)
      else Ret (None, Some e)
  | None => Ret (b, err)
  end.

Definition GetCode (addr : Address) (blockNum : Z) : Prog (bytes * option error) :=
  '(code, _) ← call (backend_GetCode addr LatestBlockNumber);
  Ret (code, None).

Definition getBlockByNum (blockNum : Z) : Prog (option Block * option error) :=
  let height := blockNum in
  if height <=? 0 then call backend_CurrentBlock
  else call (backend_BlockByNumber height).

(** The part that [GetBlockByHash] and [GetBlockByNumber] share once the
    block has been asked for. *)
Definition blockResponse (fullTx : bool) (r : option Block * option error)
    : Prog (option RpcBlock * option error) :=
  let '(block, err) := r in
  match err with
  | Some e =>
      if decide (e = ErrBlockNotFound) then Ret (None, None)
      else Ret (None, Some e)
  | None =>
      if fullTx then
        match block with
        | None => Panic
        | Some b =>
            '(txs, err) ← call (backend_GetTxListByHeight (to_uint32 (Number b)));
            match err with
            | Some e => Ret (None, Some e)
            | None => Ret (blockToRpcResp block txs, None)
            end
        end
      else Ret (blockToRpcResp block [], None)
  end.

Definition GetBlockByHash (hash : Hash) (fullTx : bool)
    : Prog (option RpcBlock * option error) :=
  call (backend_BlockByHash hash) ≫= blockResponse fullTx.

Definition GetBlockByNumber (blockNum : Z) (fullTx : bool)
    : Prog (option RpcBlock * option error) :=
  getBlockByNum blockNum ≫= blockResponse fullTx.

(** The part that the two transaction-count methods share. *)
Definition countResponse (r : option Block * option error) : Prog (option Z) :=
  let '(block, err) := r in
  match err with
  | Some _ => Ret None
  | None =>
      match block with
      | None => Panic
      | Some b => Ret (Some (Z.of_nat (length (Transactions b))))
      end
  end.

Definition GetBlockTransactionCountByHash (hash : Hash) : Prog (option Z) :=
  call (backend_BlockByHash hash) ≫= countResponse.


(** [getTxByIdx]; [idx] is a [hexutil.Uint], an unsigned number. *)
Definition getTxByIdx (block : option Block) (idx : N)
    : Prog (option RpcTx * option error) :=
  match block with
  | None => Panic
  | Some b =>
      if (N.of_nat (length (Transactions b)) <=? idx)%N then Ret (None, None)
      else
        match Transactions b !! N.to_nat idx with
        | None => Panic
        | Some txHash =>
            '(tx, err) ← call (backend_GetTransaction txHash);
            match err with
            | Some e => Ret (None, Some e)
            | None => Ret (txToRpcResp tx, None)
            end
        end
  end.

(** The part that the two by-index methods share. *)
Definition txByIdxResponse (idx : N) (r : option Block * option error)
    : Prog (option RpcTx * option error) :=
  let '(block, err) := r in
  match err with
  | Some e => Ret (None, Some e)
  | None => getTxByIdx block idx
  end.

Definition GetTransactionByBlockHashAndIndex (hash : Hash) (idx : N)
    : Prog (option RpcTx * option error) :=
  call (backend_BlockByHash hash) ≫= txByIdxResponse idx.

Definition GetTransactionByBlockNumberAndIndex (blockNum : Z) (idx : N)
    : Prog (option RpcTx * option error) :=
  getBlockByNum blockNum ≫= txByIdxResponse idx.

Definition GetTransactionByHash (hash : Hash) : Prog (option RpcTx * option error) :=
  '(tx, err) ← call (backend_GetTransaction hash);
  match err with
  | Some _ => Ret (None, None)
  | None => Ret (txToRpcResp tx, None)
  end.

Definition GetTransactionCount (addr : Address) (blockNum : Z)
    : Prog (option Z * option error) :=
  '(nonce, err) ← call (backend_GetNonce addr);
  match err with
  | Some e => Ret (None, Some e)
  | None => Ret (Some nonce, None)
  end.

Definition GetTransactionReceipt (hash : Hash)
    : Prog (option RpcReceipt * option error) :=
  '(tx, err) ← call (backend_GetTransaction hash);
  match err with
  | Some _ => Ret (None, None)
  | None => Ret (txToReceiptRpcResp tx, None)
  end.

(** ** Methods that submit or execute transactions *)

Definition SendRawTransaction (data : bytes) : Prog (Hash * option error) :=
  let '(tx, err) := DecodeTx data in
  match err with
  | Some e => Ret (zeroHash, Some e)
  | None =>
      '(tmTxHash, err) ← call (backend_SendRawTx data);
      match err with
      | Some e => Ret (tmTxHash, Some e)
      | None =>
          match tx with
          | None => Panic
          | Some t => Ret (tx_Hash t, None)
          end
      end
  end.

(** What [SendTransaction] does once the nonce step is over. *)
Definition signAndSend (privKey : PrivKey) (args : SendTxArgs)
    : Prog (Hash * option error) :=
  let '(tx, err) := createGethTxFromSendTxArgs args in
  match err with
  | Some e => Ret (zeroHash, Some e)
  | None =>
      chainID ← call backend_ChainId;
      let '(tx, err) := SignTx tx chainID privKey in
      match err with
      | Some e => Ret (zeroHash, Some e)
      | None =>
          let '(txBytes, err) := EncodeTx tx in
          match err with
          | Some e => Ret (zeroHash, Some e)
          | None =>
              '(tmTxHash, err) ← call (backend_SendRawTx txBytes);
              match err with
              | Some e => Ret (tmTxHash, Some e)
              | None =>
                  match tx with
                  | None => Panic
                  | Some t => Ret (tx_Hash t, err)
                  end
              end
          end
      end
  end.

Definition SendTransaction (api : ethAPI) (args : SendTxArgs)
    : Prog (Hash * option error) :=
  match accounts api !! sa_From args with
  | None =>
      Ret (zeroHash, Some (errors_New ("unknown account: " +:+ Hex (sa_From args))))
  | Some privKey =>
      match sa_Nonce args with
      | None =>
          '(nonce, err) ← call (backend_GetNonce (sa_From args));
          match err with
          | None => signAndSend privKey (set_Nonce args (Some nonce))
          | Some _ => signAndSend privKey args
          end
      | Some _ => signAndSend privKey args
      end
  end.

Definition createGethTxFromCallArgs (args : CallArgs)
    : option GethTx * Address * option error :=
  let from := match ca_From args with Some a => a | None => zeroAddress end in
  let to := match ca_To args with Some a => a | None => zeroAddress end in
  let val := match ca_Value args with Some v => v | None => 0 end in
  let gasLimit := match ca_Gas args with Some g => g | None => DefaultRPCGasLimit end in
  let gasPrice := match ca_GasPrice args with Some p => p | None => DefaultGasPrice end in
  let data := match ca_Data args with Some d => d | None => [] end in
  let tx := NewTransaction 0 to val gasLimit gasPrice data in
  (Some tx, from, None).

Definition Call (args : CallArgs) (blockNr : Z) : Prog (bytes * option error) :=
  let '(tx, from, err) := createGethTxFromCallArgs args in
  match err with
  | Some e => Ret ([], Some e)
  | None =>
      '(statusCode, retData) ← call (backend_Call tx from);
      if negb (StatusIsFailure statusCode) then Ret (retData, None)
      else Ret ([], Some (toCallErr statusCode retData))
  end.

Definition EstimateGas (args : CallArgs) : Prog (Z * option error) :=
  let '(tx, from, err) := createGethTxFromCallArgs args in
  match err with
  | Some e => Ret (0, Some e)
  | None =>
      '(statusCode, retData, gas) ← call (backend_EstimateGas tx from);
      if negb (StatusIsFailure statusCode) then Ret (to_uint64 gas, None)
      else Ret (0, Some (toCallErr statusCode retData))
  end.

(** ** Running a method against a backend *)

(** A backend: some state, and an answer to every call. *)
Record Backend : Type := mkBackend {
  St : Type;
  answer : ∀ X, BackendE X → St → X * St;
}.

(** One call made to the backend. *)
Inductive BackendCall : Type :=
| called {X : Type} (e : BackendE X).

(** Whether a call is a transaction fetch. *)
Definition is_GetTransaction (c : BackendCall) : bool :=
  match c with
  | called e =>
      match e with
      | backend_GetTransaction _ => true
      | _ => false
      end
  end.

Inductive Outcome (A : Type) : Type :=
| Returned (a : A)
| Panicked.

#[global] Arguments Returned {A} a.
#[global] Arguments Panicked {A}.

(** [run b p s]: what [p] comes to when backend [b] starts in state [s],
    the calls it made in order, and the state the backend is left in. *)
Fixpoint run {A} (b : Backend) (p : Prog A) (s : St b)
    : Outcome A * list BackendCall * St b :=
  match p with
  | Ret a => (Returned a, [], s)
  | Panic => (Panicked, [], s)
  | Vis e k =>
      let '(x, s') := answer b _ e s in
      let '(o, cs, s'') := run b (k x) s' in
      (o, called e :: cs, s'')
  end.

Definition result {A} (b : Backend) (p : Prog A) (s : St b) : Outcome A :=
  (run b p s).1.1.

Definition calls {A} (b : Backend) (p : Prog A) (s : St b) : list BackendCall :=
  (run b p s).1.2.

(** The answer [b] gives to call [e] in state [s], and the state the
    backend is in afterwards. *)
Definition reply {X} (b : Backend) (e : BackendE X) (s : St b) : X :=
  (answer b X e s).1.

Definition after {X} (b : Backend) (e : BackendE X) (s : St b) : St b :=
  (answer b X e s).2.

(** A backend without state that gives one fixed answer per method. *)
Record Stub : Type := mkStub {
  stub_LatestHeight : Z;
  stub_ChainId : Z;
  stub_GetBalance : option Z * option error;
  stub_GetCode : bytes * option error;
  stub_BlockByHash : option Block * option error;
  stub_BlockByNumber : option Block * option error;
  stub_CurrentBlock : option Block * option error;
  stub_GetTxListByHeight : list StoredTx * option error;
  stub_GetTransaction : option StoredTx * option error;
  stub_GetNonce : Z * option error;
  stub_SendRawTx : Hash * option error;
  stub_Call : Z * bytes;
  stub_EstimateGas : Z * bytes * Z;
}.

Definition stub_answer (sc : Stub) (X : Type) (e : BackendE X) : X :=
  match e in BackendE X return X with
  | backend_LatestHeight => stub_LatestHeight sc
  | backend_ChainId => stub_ChainId sc
  | backend_GetBalance _ _ => stub_GetBalance sc
  | backend_GetCode _ _ => stub_GetCode sc
  | backend_BlockByHash _ => stub_BlockByHash sc
  | backend_BlockByNumber _ => stub_BlockByNumber sc
  | backend_CurrentBlock => stub_CurrentBlock sc
  | backend_GetTxListByHeight _ => stub_GetTxListByHeight sc
  | backend_GetTransaction _ => stub_GetTransaction sc
  | backend_GetNonce _ => stub_GetNonce sc
  | backend_SendRawTx _ => stub_SendRawTx sc
  | backend_Call _ _ => stub_Call sc
  | backend_EstimateGas _ _ => stub_EstimateGas sc
  end.

Definition stub_backend (sc : Stub) : Backend :=
  {| St := unit; answer := fun X e s => (stub_answer sc X e, s) |}.

End Facade.

(** ** A concrete instance to run the methods on *)

Module Fixtures.

Definition hex_digit (n : N) : string :=
  match String.get (N.to_nat n) "0123456789abcdef" with
  | Some c => String c ""
  | None => ""
  end.

Definition hex_byte (b : byte) : string :=
  hex_digit (Byte.to_N b / 16) +:+ hex_digit (Byte.to_N b mod 16).

(** An address all of whose bytes are [k mod 256]. *)
Definition address_of (k : Z) : Address :=
  vreplicate AddressLength (default x00 (Byte.of_N (Z.to_N (k mod 256)))).

(** Stand-ins for the other packages: keys and stored transactions are
    numbers, a key string parses unless it is empty, the status code 0
    alone is a success, hex is printed in lower case. *)
#[export] Instance lib : Externals := {|
  StoredTx := Z;
  RpcTx := Z;
  RpcBlock := Block * list Z;
  RpcReceipt := Z;
  PrivKey := Z;
  Hex := fun a => "0x" +:+ foldr (fun b acc => hex_byte b +:+ acc) "" (vec_to_list a);
  StatusIsFailure := fun c => negb (c =? 0);
  toCallErr := fun c d => errorString "execution reverted";
  blockToRpcResp := fun blk txs => (fun b => (b, txs)) <$> blk;
  txToRpcResp := fun tx => tx;
  txToReceiptRpcResp := fun tx => tx;
  createGethTxFromSendTxArgs := fun args =>
    (Some (NewTransaction (default 0 (sa_Nonce args)) (default zeroAddress (sa_To args))
             (default 0 (sa_Value args)) (default DefaultRPCGasLimit (sa_Gas args))
             (default DefaultGasPrice (sa_GasPrice args)) (default [] (sa_Data args))),
     None);
  SignTx := fun tx chainID key => (tx, None);
  EncodeTx := fun tx => ([], None);
  DecodeTx := fun data => (None, Some (errorString "rlp: value size exceeds available input size"));
  tx_Hash := fun tx => zeroHash;
  HexToPrivKey := fun s =>
    if decide (s = "") then (0, Some (errorString "invalid hex string"))
    else (Z.of_nat (String.length s), None);
  PubkeyToAddress := address_of;
|}.

Definition block7 : Block :=
  {| Number := 7; BlockHash := zeroHash; Transactions := [zeroHash; zeroHash] |}.

Definition storage_failure : error := errorString "leveldb: closed".

(** A backend on which every lookup works. *)
Definition healthy : Stub :=
  {| stub_LatestHeight := 7;
     stub_ChainId := 10000;
     stub_GetBalance := (Some 5, None);
     stub_GetCode := ([x60; x80], None);
     stub_BlockByHash := (Some block7, None);
     stub_BlockByNumber := (Some block7, None);
     stub_CurrentBlock := (Some block7, None);
     stub_GetTxListByHeight := ([11; 12], None);
     stub_GetTransaction := (Some 11, None);
     stub_GetNonce := (3, None);
     stub_SendRawTx := (zeroHash, None);
     stub_Call := (0, [x2a]);
     stub_EstimateGas := (0, [], 21000) |}.

(** A backend whose store is gone: every lookup fails. *)
Definition broken : Stub :=
  {| stub_LatestHeight := 7;
     stub_ChainId := 10000;
     stub_GetBalance := (None, Some storage_failure);
     stub_GetCode := ([], Some storage_failure);
     stub_BlockByHash := (None, Some storage_failure);
     stub_BlockByNumber := (None, Some storage_failure);
     stub_CurrentBlock := (None, Some storage_failure);
     stub_GetTxListByHeight := ([], Some storage_failure);
     stub_GetTransaction := (None, Some storage_failure);
     stub_GetNonce := (0, Some storage_failure);
     stub_SendRawTx := (zeroHash, Some storage_failure);
     stub_Call := (2, []);
     stub_EstimateGas := (2, [], 0) |}.

(** A backend that knows no account. *)
Definition no_account : Stub :=
  {| stub_LatestHeight := 7;
     stub_ChainId := 10000;
     stub_GetBalance := (None, Some ErrAccNotFound);
     stub_GetCode := ([], Some ErrAccNotFound);
     stub_BlockByHash := (Some block7, None);
     stub_BlockByNumber := (Some block7, None);
     stub_CurrentBlock := (Some block7, None);
     stub_GetTxListByHeight := ([11; 12], None);
     stub_GetTransaction := (Some 11, None);
     stub_GetNonce := (0, Some ErrAccNotFound);
     stub_SendRawTx := (zeroHash, None);
     stub_Call := (0, []);
     stub_EstimateGas := (0, [], 21000) |}.

Definition no_args : CallArgs :=
  {| ca_From := None; ca_To := None; ca_Gas := None; ca_GasPrice := None;
     ca_Value := None; ca_Data := None |}.

Definition send_from (a : Address) : SendTxArgs :=
  {| sa_From := a; sa_To := None; sa_Gas := None; sa_GasPrice := None;
     sa_Value := None; sa_Nonce := None; sa_Data := None; sa_Input := None |}.

(** The registry of a node configured with three keys, one of which does
    not parse. *)
Definition api2 : ethAPI := newEthAPI ["aa"; ""; "b"].

End Fixtures.

(** ** The debug API (rpc/api/debug_api.go) *)

Module Debug.

(** [StatusUpdateInterval], in seconds. *)
Definition StatusUpdateInterval : Z := 60.

Record Stats : Type := mkStats {
  NumGoroutine : Z;              (* int *)
  NumGC : Z;                     (* uint32 *)
  MemAllocMB : Z;                (* uint64 *)
  MemSysMB : Z;                  (* uint64 *)
}.

(** [debugAPI]; methods have a pointer receiver, so each one hands back
    the object it leaves behind. *)
Record debugAPI : Type := mkDebugAPI {
  lastUpdateTime : Z;            (* int64 *)
  stats : Stats;
}.

(** What the Go runtime answers when [updateStats] asks:
    [runtime.NumGoroutine()] and the fields read from
    [runtime.MemStats]. *)
Record Runtime : Type := mkRuntime {
  rt_NumGoroutine : Z;
  rt_NumGC : Z;
  rt_Alloc : Z;                  (* uint64, bytes *)
  rt_Sys : Z;                    (* uint64, bytes *)
}.

(** [newDebugAPI]: the zero value of the struct. *)
Definition newDebugAPI : debugAPI :=
  {| lastUpdateTime := 0;
     stats := {| NumGoroutine := 0; NumGC := 0; MemAllocMB := 0; MemSysMB := 0 |} |}.

(** Addition on [int64] wraps around. *)
Definition wrap_int64 (z : Z) : Z := (z + 2 ^ 63) mod 2 ^ 64 - 2 ^ 63.

(** [atomic.CompareAndSwapInt64(&api.lastUpdateTime, old, new)] with no
    other goroutine in between. *)
Definition CompareAndSwap_lastUpdateTime (api : debugAPI) (old new : Z)
    : bool * debugAPI :=
  if lastUpdateTime api =? old
  then (true, {| lastUpdateTime := new; stats := stats api |})
  else (false, api).

Definition updateStats (rt : Runtime) (api : debugAPI) : debugAPI :=
  {| lastUpdateTime := lastUpdateTime api;
     stats := {| NumGoroutine := rt_NumGoroutine rt;
                 NumGC := rt_NumGC rt;
                 MemAllocMB := rt_Alloc rt / 1024 / 1024;
                 MemSysMB := rt_Sys rt / 1024 / 1024 |} |}.

(** [GetStats] for one caller at a time; [now] is [time.Now().Unix()]. *)
Definition GetStats (now : Z) (rt : Runtime) (api : debugAPI) : Stats * debugAPI :=
  let last := lastUpdateTime api in
  if wrap_int64 (last + StatusUpdateInterval) <? now then
    let '(swapped, api1) := CompareAndSwap_lastUpdateTime api last now in
    if swapped then
      let api2 := updateStats rt api1 in (stats api2, api2)
    else (stats api1, api1)
  else (stats api, api).

End Debug.

(** ** A second instance, with a codec that round-trips *)

Module Fixtures2.
Import Fixtures.

(** One byte of wire format: the nonce. *)
Definition encode_nonce (tx : option GethTx) : bytes * option error :=
  match tx with
  | Some t =>
      match Byte.of_N (Z.to_N (tx_nonce t)) with
      | Some b => ([b], None)
      | None => ([], Some (errorString "rlp: nonce too large"))
      end
  | None => ([], Some (errorString "rlp: nil transaction"))
  end.

Definition decode_nonce (data : bytes) : option GethTx * option error :=
  match data with
  | [b] =>
      (Some (NewTransaction (Z.of_N (Byte.to_N b)) zeroAddress 0
               DefaultRPCGasLimit DefaultGasPrice []), None)
  | _ => (None, Some (errorString "rlp: value size exceeds available input size"))
  end.

(** The hash of a transaction tells nonces apart. *)
Definition nonce_hash (t : GethTx) : Hash :=
  vreplicate HashLength (default x00 (Byte.of_N (Z.to_N (tx_nonce t mod 256)))).

Definition lib2 : Externals := {|
  StoredTx := Z;
  RpcTx := Z;
  RpcBlock := Block * list Z;
  RpcReceipt := Z;
  PrivKey := Z;
  Hex := @Hex lib;
  StatusIsFailure := fun c => negb (c =? 0);
  toCallErr := fun c d => errorString "execution reverted";
  blockToRpcResp := fun blk txs => (fun b => (b, txs)) <$> blk;
  txToRpcResp := fun tx => tx;
  txToReceiptRpcResp := fun tx => tx;
  createGethTxFromSendTxArgs := fun args =>
    (Some (NewTransaction (default 0 (sa_Nonce args)) (default zeroAddress (sa_To args))
             (default 0 (sa_Value args)) (default DefaultRPCGasLimit (sa_Gas args))
             (default DefaultGasPrice (sa_GasPrice args)) (default [] (sa_Data args))),
     None);
  SignTx := fun tx chainID key => (tx, None);
  EncodeTx := encode_nonce;
  DecodeTx := decode_nonce;
  tx_Hash := nonce_hash;
  HexToPrivKey := @HexToPrivKey lib;
  PubkeyToAddress := address_of;
|}.

(** A backend for [lib2] on which every lookup works. *)
Definition healthy2 : @Stub lib2 :=
  @mkStub lib2 7 10000 (Some 5, None) ([x60; x80], None)
    (Some block7, None) (Some block7, None) (Some block7, None)
    ([11; 12], None) (Some 11, None) (3, None) (zeroHash, None)
    (0, [x2a]) (0, [], 21000).

(** A registry for [lib2] with the one key 2. *)
Definition api_one : @ethAPI lib2 :=
  @mkEthAPI lib2 (<[address_of 2 := 2]> ∅).

Definition send_with_nonce (a : Address) (n : Z) : SendTxArgs :=
  {| sa_From := a; sa_To := None; sa_Gas := None; sa_GasPrice := None;
     sa_Value := None; sa_Nonce := Some n; sa_Data := None; sa_Input := None |}.

(** A backend that has no block. *)
Definition no_block : @Stub lib :=
  {| stub_LatestHeight := 0;
     stub_ChainId := 10000;
     stub_GetBalance := (Some 5, None);
     stub_GetCode := ([], None);
     stub_BlockByHash := (None, Some ErrBlockNotFound);
     stub_BlockByNumber := (None, Some ErrBlockNotFound);
     stub_CurrentBlock := (None, Some ErrBlockNotFound);
     stub_GetTxListByHeight := ([], None);
     stub_GetTransaction := (None, Some (errorString "tx not found"));
     stub_GetNonce := (0, None);
     stub_SendRawTx := (zeroHash, None);
     stub_Call := (0, []);
     stub_EstimateGas := (0, [], 21000) |}.

End Fixtures2.

(** ** The address order *)

(** The order the specification names: byte-wise lexicographic, the
    byte at index 0 deciding first. *)
Fixpoint lex_ltb (l m : list N) : bool :=
  match l, m with
  | [], [] => false
  | [], _ :: _ => true
  | _ :: _, [] => false
  | a :: l', b :: m' =>
      if (a <? b)%N then true
      else if (b <? a)%N then false
      else lex_ltb l' m'
  end.

Definition addr_bytes (a : Address) : list N := Byte.to_N <$> vec_to_list a.

Definition addr_lt (x y : Address) : Prop := lex_ltb (addr_bytes x) (addr_bytes y) = true.

Lemma lex_ltb_irrefl l : lex_ltb l l = false.
Proof. induction l as [|a l IH]; simpl; [done|]. by rewrite N.ltb_irrefl. Qed.

Lemma lex_ltb_trans l m o :
  lex_ltb l m = true → lex_ltb m o = true → lex_ltb l o = true.
Proof.
  revert m o. induction l as [|a l IH]; intros [|b m] [|c o]; simpl; try done.
  destruct (N.ltb_spec a b), (N.ltb_spec b a), (N.ltb_spec b c), (N.ltb_spec c b),
    (N.ltb_spec a c), (N.ltb_spec c a); try done; try lia.
  apply IH.
Qed.

Lemma lex_ltb_total l m :
  length l = length m → lex_ltb l m = false → lex_ltb m l = false → l = m.
Proof.
  revert m. induction l as [|a l IH]; intros [|b m]; simpl; try done.
  intros [= Hlen].
  destruct (N.ltb_spec a b), (N.ltb_spec b a); try done; try lia.
  intros H1 H2. f_equal; [lia|]. by apply IH.
Qed.

Lemma length_addr_bytes (a : Address) : length (addr_bytes a) = AddressLength.
Proof. unfold addr_bytes. by rewrite length_fmap, length_vec_to_list. Qed.

Lemma addr_bytes_inj (x y : Address) : addr_bytes x = addr_bytes y → x = y.
Proof.
  intros E. apply vec_to_list_inj2.
  revert E. unfold addr_bytes. generalize (vec_to_list x) (vec_to_list y).
  induction l as [|a l IH]; intros [|b m]; simpl; try done.
  intros [= Hab Hlm]. f_equal; [by apply byte_to_N_inj | by apply IH].
Qed.

Lemma addr_bytes_lookup (a : Address) (k : nat) :
  (k < AddressLength)%nat → addr_bytes a !! k = Some (byte_at a k).
Proof.
  intros Hk. unfold addr_bytes, byte_at. rewrite list_lookup_fmap.
  destruct (vec_to_list a !! k) as [b|] eqn:E; [done|].
  apply lookup_ge_None in E. rewrite length_vec_to_list in E. lia.
Qed.

(** The loop of the closure computes the lexicographic order. *)
Lemma less_loop_lex (x y : Address) (k n : nat) :
  (k + n = AddressLength)%nat →
  less_loop x y k n = lex_ltb (drop k (addr_bytes x)) (drop k (addr_bytes y)).
Proof.
  revert k. induction n as [|n IH]; intros k Hk; simpl.
  - rewrite !drop_ge; [done| |]; rewrite length_addr_bytes; lia.
  - rewrite (drop_S (addr_bytes x) (byte_at x k) k) by (apply addr_bytes_lookup; lia).
    rewrite (drop_S (addr_bytes y) (byte_at y k) k) by (apply addr_bytes_lookup; lia).
    simpl. rewrite IH by lia. done.
Qed.

Lemma less_lex (x y : Address) : less x y = lex_ltb (addr_bytes x) (addr_bytes y).
Proof. unfold less. by rewrite less_loop_lex. Qed.

Lemma less_addr_lt (x y : Address) : less x y = true ↔ addr_lt x y.
Proof. unfold addr_lt. by rewrite less_lex. Qed.

#[global] Instance addr_lt_dec x y : Decision (addr_lt x y).
Proof. unfold addr_lt. apply _. Defined.

Lemma addr_lt_irrefl x : ¬ addr_lt x x.
Proof. unfold addr_lt. by rewrite lex_ltb_irrefl. Qed.

Lemma addr_lt_trans x y z : addr_lt x y → addr_lt y z → addr_lt x z.
Proof. apply lex_ltb_trans. Qed.

Lemma addr_lt_asym x y : addr_lt x y → addr_lt y x → False.
Proof. intros H1 H2. exact (addr_lt_irrefl x (addr_lt_trans _ _ _ H1 H2)). Qed.

Lemma addr_lt_total x y : x ≠ y → addr_lt x y ∨ addr_lt y x.
Proof.
  intros Hne. unfold addr_lt.
  destruct (lex_ltb (addr_bytes x) (addr_bytes y)) eqn:E1; [by left|].
  destruct (lex_ltb (addr_bytes y) (addr_bytes x)) eqn:E2; [by right|].
  destruct Hne. apply addr_bytes_inj, lex_ltb_total; [|done..].
  by rewrite !length_addr_bytes.
Qed.

(** ** The sort *)

Section insertion_sort.
Context {A : Type} (lt : A → A → bool).
Hypothesis lt_irrefl : ∀ x, lt x x = false.
Hypothesis lt_trans : ∀ x y z, lt x y = true → lt y z = true → lt x z = true.
Hypothesis lt_total : ∀ x y, x ≠ y → lt x y = true ∨ lt y x = true.

Local Abbreviation R := (fun x y => lt x y = true).

Lemma sort_insert_perm x l : sort_insert lt x l ≡ₚ x :: l.
Proof.
  induction l as [|y l IH]; simpl; [done|].
  destruct (lt x y); [done|]. rewrite IH. apply perm_swap.
Qed.

Lemma sort_insert_sorted x l :
  x ∉ l → StronglySorted R l → StronglySorted R (sort_insert lt x l).
Proof.
  induction l as [|y l IH]; simpl; intros Hx Hl.
  - repeat constructor.
  - apply not_elem_of_cons in Hx as [Hxy Hxl].
    apply StronglySorted_inv in Hl as [Hl Hy].
    destruct (lt x y) eqn:E.
    + constructor; [by constructor|].
      constructor; [done|].
      eapply Forall_impl; [exact Hy|]. simpl. eauto.
    + constructor; [by apply IH|].
      rewrite sort_insert_perm. constructor; [|done].
      destruct (lt_total x y Hxy); congruence.
Qed.

Lemma sort_loop_perm acc l :
  foldl (fun acc x => sort_insert lt x acc) acc l ≡ₚ acc ++ l.
Proof.
  revert acc. induction l as [|x l IH]; intros acc; simpl.
  - by rewrite app_nil_r.
  - rewrite IH, sort_insert_perm. simpl. apply Permutation_middle.
Qed.

Lemma sort_loop_sorted acc l :
  NoDup (acc ++ l) → StronglySorted R acc →
  StronglySorted R (foldl (fun acc x => sort_insert lt x acc) acc l).
Proof.
  revert acc. induction l as [|x l IH]; intros acc Hnd Hacc; simpl; [done|].
  rewrite <-Permutation_middle in Hnd.
  apply NoDup_cons in Hnd as [Hx Hnd'].
  apply IH.
  - rewrite sort_insert_perm. simpl. by constructor.
  - apply sort_insert_sorted; [|done]. set_solver.
Qed.

Lemma sort_Slice_perm l : sort_Slice lt l ≡ₚ l.
Proof. unfold sort_Slice. by rewrite sort_loop_perm. Qed.

Lemma sort_Slice_sorted l : NoDup l → StronglySorted R (sort_Slice lt l).
Proof. intros Hl. apply sort_loop_sorted; [done|constructor]. Qed.

(** On a list without repetitions there is one sorted arrangement, so
    any sorting procedure returns what [sort_Slice] returns. *)
Lemma sort_Slice_unique l out :
  NoDup l → out ≡ₚ l → StronglySorted R out → out = sort_Slice lt l.
Proof.
  intros Hl Hp Hs.
  apply (StronglySorted_unique_strong R); [|done|by apply sort_Slice_sorted|].
  - intros x y _ _ Hxy Hyx. simpl in *.
    pose proof (lt_trans _ _ _ Hxy Hyx) as Hxx. by rewrite lt_irrefl in Hxx.
  - by rewrite sort_Slice_perm.
Qed.

End insertion_sort.

Lemma less_irrefl x : less x x = false.
Proof. rewrite less_lex. apply lex_ltb_irrefl. Qed.

Lemma less_trans x y z : less x y = true → less y z = true → less x z = true.
Proof. rewrite !less_lex. apply lex_ltb_trans. Qed.

Lemma less_total x y : x ≠ y → less x y = true ∨ less y x = true.
Proof. rewrite !less_addr_lt. apply addr_lt_total. Qed.

Lemma StronglySorted_less l :
  StronglySorted (fun x y => less x y = true) l → StronglySorted addr_lt l.
Proof.
  induction 1 as [|x l Hl IH Hx]; constructor; [done|].
  eapply Forall_impl; [exact Hx|]. intros y. apply less_addr_lt.
Qed.

Lemma range_loop_append {A} (l acc : list A) :
  foldl (fun addrs addr => addrs ++ [addr]) acc l = acc ++ l.
Proof.
  revert acc. induction l as [|x l IH]; intros acc; simpl.
  - by rewrite app_nil_r.
  - by rewrite IH, <-app_assoc.
Qed.

(** ** Properties of the facade *)

Section FacadeProperties.
Context `{Lib : Externals}.

(** *** Running programs *)

Lemma run_Ret {A} (b : Backend) (a : A) s : run b (Ret a) s = (Returned a, [], s).
Proof. done. Qed.

Lemma run_Vis {A X} (b : Backend) (e : BackendE X) (k : X → Prog A) s :
  run b (Vis e k) s =
  let '(o, cs, s') := run b (k (reply b e s)) (after b e s) in
  (o, called e :: cs, s').
Proof. unfold reply, after. simpl. by destruct (answer b X e s). Qed.

Lemma run_call {X} (b : Backend) (e : BackendE X) s :
  run b (call e) s = (Returned (reply b e s), [called e], after b e s).
Proof. unfold call. by rewrite run_Vis. Qed.

Lemma run_bind {A B} (b : Backend) (p : Prog A) (f : A → Prog B) s :
  run b (p ≫= f) s =
  match run b p s with
  | (Returned a, cs, s') =>
      let '(o, cs', s'') := run b (f a) s' in (o, cs ++ cs', s'')
  | (Panicked, cs, s') => (Panicked, cs, s')
  end.
Proof.
  revert s. induction p as [a| |X e k IH]; intros s.
  - change (Ret a ≫= f) with (f a). simpl. by destruct (run b (f a) s) as [[??]?].
  - done.
  - change (Vis e k ≫= f) with (Vis e (fun x => k x ≫= f)).
    rewrite !run_Vis, IH.
    destruct (run b (k (reply b e s)) (after b e s)) as [[[a|] cs] s']; [|done].
    by destruct (run b (f a) s') as [[??]?].
Qed.

Lemma run_call_bind {A X} (b : Backend) (e : BackendE X) (f : X → Prog A) s :
  run b (call e ≫= f) s =
  let '(o, cs, s') := run b (f (reply b e s)) (after b e s) in
  (o, called e :: cs, s').
Proof. by rewrite run_bind, run_call. Qed.

(** *** eth_getBalance *)

Lemma GetBalance_run b s addr blockNum :
  run b (GetBalance addr blockNum) s =
  (Returned
     match reply b (backend_GetBalance addr LatestBlockNumber) s with
     | (_, Some e) => if decide (e = ErrAccNotFound) then (Some 0, None) else (None, Some e)
     | (v, None) => (v, None)
     end,
   [called (backend_GetBalance addr LatestBlockNumber)],
   after b (backend_GetBalance addr LatestBlockNumber) s).
Proof.
  unfold GetBalance. rewrite run_call_bind.
  destruct (reply b _ s) as [v [e|]]; [|done]. by case_decide.
Qed.

(** C10. When the backend's balance query fails with the
    account-not-found error, [eth_getBalance] answers the balance zero
    and no error; when it fails with any other error, that error is
    returned and there is no balance. *)
Theorem GetBalance_not_found_is_zero b s addr blockNum v e :
  reply b (backend_GetBalance addr LatestBlockNumber) s = (v, Some e) →
  (e = ErrAccNotFound → result b (GetBalance addr blockNum) s = Returned (Some 0, None)) ∧
  (e ≠ ErrAccNotFound → result b (GetBalance addr blockNum) s = Returned (None, Some e)).
Proof.
  intros Hr. unfold result. rewrite GetBalance_run, Hr. simpl.
  split; intros He; by case_decide.
Qed.

(** *** eth_sendTransaction with a sender outside the registry *)

(** C6. When the sender is not a key of the registry,
    [eth_sendTransaction] returns the error whose message is
    "unknown account: " followed by the hex form of the sender, and it
    makes no call to the backend at all. *)
Theorem SendTransaction_unknown_account (api : ethAPI) (args : SendTxArgs) b s :
  accounts api !! sa_From args = None →
  result b (SendTransaction api args) s =
    Returned (zeroHash,
              Some (errors_New ("unknown account: " +:+ Hex (sa_From args)))) ∧
  calls b (SendTransaction api args) s = [].
Proof.
  intros Hnone. unfold result, calls, SendTransaction. by rewrite Hnone.
Qed.

(** *** The transaction built from call arguments *)

Lemma createGethTxFromCallArgs_ok (args : CallArgs) :
  ∃ tx, createGethTxFromCallArgs args =
          (Some tx, default zeroAddress (ca_From args), None) ∧
        tx_nonce tx = 0 ∧
        tx_to tx = Some (default zeroAddress (ca_To args)) ∧
        tx_value tx = default 0 (ca_Value args) ∧
        tx_gas tx = default DefaultRPCGasLimit (ca_Gas args) ∧
        tx_gasPrice tx = default DefaultGasPrice (ca_GasPrice args) ∧
        tx_data tx = default [] (ca_Data args).
Proof.
  unfold createGethTxFromCallArgs. eexists. split; [reflexivity|].
  simpl.
  by destruct (ca_To args), (ca_Value args), (ca_Gas args),
    (ca_GasPrice args), (ca_Data args).
Qed.

Lemma EstimateGas_run b s args :
  ∃ tx, createGethTxFromCallArgs args =
          (Some tx, default zeroAddress (ca_From args), None) ∧
  let e := backend_EstimateGas (Some tx) (default zeroAddress (ca_From args)) in
  run b (EstimateGas args) s =
  (Returned
     (let '(statusCode, retData, gas) := reply b e s in
      if StatusIsFailure statusCode then (0, Some (toCallErr statusCode retData))
      else (to_uint64 gas, None)),
   [called e], after b e s).
Proof.
  destruct (createGethTxFromCallArgs_ok args) as (tx & Htx & _).
  exists tx. split; [done|]. cbv zeta.
  unfold EstimateGas. rewrite Htx.
  rewrite run_call_bind.
  destruct (reply b _ s) as [[statusCode retData] gas].
  by destruct (StatusIsFailure statusCode).
Qed.

Lemma Call_run b s args blockNr :
  ∃ tx, createGethTxFromCallArgs args =
          (Some tx, default zeroAddress (ca_From args), None) ∧
  let e := backend_Call (Some tx) (default zeroAddress (ca_From args)) in
  run b (Call args blockNr) s =
  (Returned
     (let '(statusCode, retData) := reply b e s in
      if StatusIsFailure statusCode then ([], Some (toCallErr statusCode retData))
      else (retData, None)),
   [called e], after b e s).
Proof.
  destruct (createGethTxFromCallArgs_ok args) as (tx & Htx & _).
  exists tx. split; [done|]. cbv zeta.
  unfold Call. rewrite Htx.
  rewrite run_call_bind.
  destruct (reply b _ s) as [statusCode retData].
  by destruct (StatusIsFailure statusCode).
Qed.

(** C5. When [Gas], [GasPrice] and [Value] are all absent,
    [eth_estimateGas] makes exactly one backend call, [EstimateGas], and
    the transaction it passes has gas limit [DefaultRPCGasLimit], gas
    price [DefaultGasPrice] and value zero. *)
Theorem EstimateGas_defaults (args : CallArgs) b s :
  ca_Gas args = None → ca_GasPrice args = None → ca_Value args = None →
  ∃ tx sender,
    calls b (EstimateGas args) s = [called (backend_EstimateGas (Some tx) sender)] ∧
    tx_gas tx = DefaultRPCGasLimit ∧
    tx_gasPrice tx = DefaultGasPrice ∧
    tx_value tx = 0.
Proof.
  intros Hgas Hprice Hval.
  destruct (createGethTxFromCallArgs_ok args)
    as (tx & Htx & _ & _ & Hv & Hg & Hp & _).
  destruct (EstimateGas_run b s args) as (tx' & Htx' & Hrun).
  assert (tx' = tx) as -> by congruence.
  exists tx, (default zeroAddress (ca_From args)).
  unfold calls. rewrite Hrun. simpl.
  rewrite Hg, Hp, Hv, Hgas, Hprice, Hval. done.
Qed.

(** *** Status codes of eth_call and eth_estimateGas *)

(** C4. With the transaction and sender built from the arguments:
    when the status code the backend reports is not a failure,
    [eth_call] returns the backend's return data and no error, and
    [eth_estimateGas] returns the backend's gas amount and no error
    (the amount is converted to [uint64], which leaves every amount
    from 0 to 2^64 - 1 as it is); when the status code is a failure,
    both return the error made from the status code and the return
    data by [toCallErr], together with the empty value. *)
Theorem Call_EstimateGas_by_status (args : CallArgs) (blockNr : Z) b s :
  ∃ tx sender,
    createGethTxFromCallArgs args = (Some tx, sender, None) ∧
    (∀ statusCode retData,
       reply b (backend_Call (Some tx) sender) s = (statusCode, retData) →
       (StatusIsFailure statusCode = false →
          result b (Call args blockNr) s = Returned (retData, None)) ∧
       (StatusIsFailure statusCode = true →
          result b (Call args blockNr) s =
            Returned ([], Some (toCallErr statusCode retData)))) ∧
    (∀ statusCode retData gas,
       reply b (backend_EstimateGas (Some tx) sender) s = (statusCode, retData, gas) →
       (StatusIsFailure statusCode = false →
          result b (EstimateGas args) s = Returned (to_uint64 gas, None) ∧
          (0 ≤ gas < 2 ^ 64 →
             result b (EstimateGas args) s = Returned (gas, None))) ∧
       (StatusIsFailure statusCode = true →
          result b (EstimateGas args) s =
            Returned (0, Some (toCallErr statusCode retData)))).
Proof.
  destruct (Call_run b s args blockNr) as (tx & Htx & Hcall).
  destruct (EstimateGas_run b s args) as (tx' & Htx' & Hest).
  assert (tx' = tx) as -> by congruence.
  exists tx, (default zeroAddress (ca_From args)).
  split; [done|]. unfold result. simpl in *. split.
  - intros statusCode retData Hr. rewrite Hcall, Hr. simpl.
    split; by intros ->.
  - intros statusCode retData gas Hr. rewrite Hest, Hr. simpl.
    split.
    + intros ->. split; [done|].
      intros Hgas. unfold to_uint64. by rewrite Z.mod_small.
    + by intros ->.
Qed.

(** *** eth_gasPrice *)

(** C1, as the code has it. [eth_gasPrice] reports the constant zero,
    whatever the registry (it makes no backend call); the builder puts
    [DefaultGasPrice] = 20000000000 where [GasPrice] is absent; the two
    constants differ. *)
Theorem GasPrice_zero_not_default_price (api : ethAPI) (args : CallArgs) :
  ca_GasPrice args = None →
  GasPrice api = Some 0 ∧
  ∃ tx sender,
    createGethTxFromCallArgs args = (Some tx, sender, None) ∧
    tx_gasPrice tx = DefaultGasPrice ∧
    GasPrice api ≠ Some (tx_gasPrice tx).
Proof.
  intros Hprice.
  destruct (createGethTxFromCallArgs_ok args) as (tx & Htx & _ & _ & _ & _ & Hp & _).
  rewrite Hprice in Hp. simpl in Hp.
  split; [done|]. exists tx, (default zeroAddress (ca_From args)).
  split; [done|]. split; [done|]. rewrite Hp. by unfold GasPrice, DefaultGasPrice.
Qed.

(** *** Transactions by hash *)

Lemma GetTransactionByHash_run b s hash :
  run b (GetTransactionByHash hash) s =
  (Returned
     match reply b (backend_GetTransaction hash) s with
     | (_, Some _) => (None, None)
     | (tx, None) => (txToRpcResp tx, None)
     end,
   [called (backend_GetTransaction hash)],
   after b (backend_GetTransaction hash) s).
Proof.
  unfold GetTransactionByHash. rewrite run_call_bind.
  by destruct (reply b _ s) as [tx [e|]].
Qed.

Lemma GetTransactionReceipt_run b s hash :
  run b (GetTransactionReceipt hash) s =
  (Returned
     match reply b (backend_GetTransaction hash) s with
     | (_, Some _) => (None, None)
     | (tx, None) => (txToReceiptRpcResp tx, None)
     end,
   [called (backend_GetTransaction hash)],
   after b (backend_GetTransaction hash) s).
Proof.
  unfold GetTransactionReceipt. rewrite run_call_bind.
  by destruct (reply b _ s) as [tx [e|]].
Qed.

(** C2, as the code has it. For [eth_getTransactionByHash] and
    [eth_getTransactionReceipt]: whenever the backend's [GetTransaction]
    reports a failure, be it "transaction not found" or any other, the
    result is null with no error. *)
Theorem GetTransaction_failure_is_null b s hash tx e :
  reply b (backend_GetTransaction hash) s = (tx, Some e) →
  result b (GetTransactionByHash hash) s = Returned (None, None) ∧
  result b (GetTransactionReceipt hash) s = Returned (None, None).
Proof.
  intros Hr. unfold result.
  by rewrite GetTransactionByHash_run, GetTransactionReceipt_run, Hr.
Qed.

(** *** Blocks by number and by hash *)

Lemma getBlockByNum_head blockNum :
  blockNum ≤ 0 → getBlockByNum blockNum = call backend_CurrentBlock.
Proof.
  intros H. unfold getBlockByNum.
  destruct (Z.leb_spec blockNum 0); [done|lia].
Qed.

Lemma getBlockByNum_exact blockNum :
  0 < blockNum → getBlockByNum blockNum = call (backend_BlockByNumber blockNum).
Proof.
  intros H. unfold getBlockByNum.
  destruct (Z.leb_spec blockNum 0); [lia|done].
Qed.

(** A block request whose lookup [e] finds block [blk]. *)
Lemma block_request_found b s (e : BackendE (option Block * option error)) fullTx blk :
  reply b e s = (Some blk, None) →
  run b (call e ≫= blockResponse fullTx) s =
  let s1 := after b e s in
  let e2 := backend_GetTxListByHeight (to_uint32 (Number blk)) in
  if fullTx then
    (Returned
       match reply b e2 s1 with
       | (_, Some er) => (None, Some er)
       | (txs, None) => (blockToRpcResp (Some blk) txs, None)
       end,
     [called e; called e2], after b e2 s1)
  else (Returned (blockToRpcResp (Some blk) [], None), [called e], s1).
Proof.
  intros Hr. rewrite run_call_bind, Hr. unfold blockResponse.
  destruct fullTx; [|done].
  rewrite run_call_bind.
  by destruct (reply b (backend_GetTxListByHeight _) _) as [txs [er|]].
Qed.

(** A block request whose lookup [e] fails. *)
Lemma block_request_failed b s (e : BackendE (option Block * option error)) fullTx blk er :
  reply b e s = (blk, Some er) →
  run b (call e ≫= blockResponse fullTx) s =
  (Returned (if decide (er = ErrBlockNotFound) then (None, None) else (None, Some er)),
   [called e], after b e s).
Proof.
  intros Hr. rewrite run_call_bind, Hr. unfold blockResponse.
  by case_decide.
Qed.


(** *** Transactions by index *)

Lemma getTxByIdx_out_of_bounds blk (idx : N) :
  (N.of_nat (length (Transactions blk)) ≤ idx)%N →
  getTxByIdx (Some blk) idx = Ret (None, None).
Proof.
  intros H. unfold getTxByIdx.
  destruct (N.leb_spec (N.of_nat (length (Transactions blk))) idx); [done|lia].
Qed.

Lemma getBlockByNum_call blockNum :
  ∃ e : BackendE (option Block * option error),
    getBlockByNum blockNum = call e ∧ is_GetTransaction (called e) = false.
Proof.
  destruct (Z.leb_spec blockNum 0).
  - exists backend_CurrentBlock. by rewrite getBlockByNum_head.
  - exists (backend_BlockByNumber blockNum). by rewrite getBlockByNum_exact.
Qed.

(** C8. Once the block is there, an index that is at least the number
    of its transactions makes [eth_getTransactionByBlockNumberAndIndex]
    and [eth_getTransactionByBlockHashAndIndex] return null with no
    error; the only backend call made is the one that fetched the
    block, so no transaction is fetched. *)
Theorem tx_by_index_out_of_bounds b s blk (idx : N) :
  (N.of_nat (length (Transactions blk)) ≤ idx)%N →
  (∀ blockNum,
     result b (getBlockByNum blockNum) s = Returned (Some blk, None) →
     result b (GetTransactionByBlockNumberAndIndex blockNum idx) s =
       Returned (None, None) ∧
     calls b (GetTransactionByBlockNumberAndIndex blockNum idx) s =
       calls b (getBlockByNum blockNum) s ∧
     Forall (fun c => is_GetTransaction c = false)
       (calls b (GetTransactionByBlockNumberAndIndex blockNum idx) s)) ∧
  (∀ hash,
     reply b (backend_BlockByHash hash) s = (Some blk, None) →
     result b (GetTransactionByBlockHashAndIndex hash idx) s =
       Returned (None, None) ∧
     calls b (GetTransactionByBlockHashAndIndex hash idx) s =
       [called (backend_BlockByHash hash)]).
Proof.
  intros Hidx. split.
  - intros blockNum.
    destruct (getBlockByNum_call blockNum) as (e & He & Hne).
    unfold GetTransactionByBlockNumberAndIndex, result, calls.
    rewrite He, run_call, run_call_bind. simpl.
    intros [= Hr]. rewrite Hr. unfold txByIdxResponse.
    rewrite (getTxByIdx_out_of_bounds _ _ Hidx). simpl.
    split; [done|]. split; [done|]. by repeat constructor.
  - intros hash Hr.
    unfold GetTransactionByBlockHashAndIndex, result, calls.
    rewrite run_call_bind, Hr. unfold txByIdxResponse.
    by rewrite (getTxByIdx_out_of_bounds _ _ Hidx).
Qed.

(** *** Where errors go *)

Lemma GetCode_run b s addr blockNum :
  run b (GetCode addr blockNum) s =
  (Returned ((reply b (backend_GetCode addr LatestBlockNumber) s).1, None),
   [called (backend_GetCode addr LatestBlockNumber)],
   after b (backend_GetCode addr LatestBlockNumber) s).
Proof.
  unfold GetCode. rewrite run_call_bind.
  by destruct (reply b _ s) as [code err].
Qed.

Lemma GetTransactionCount_run b s addr blockNum :
  run b (GetTransactionCount addr blockNum) s =
  (Returned
     match reply b (backend_GetNonce addr) s with
     | (_, Some e) => (None, Some e)
     | (nonce, None) => (Some nonce, None)
     end,
   [called (backend_GetNonce addr)], after b (backend_GetNonce addr) s).
Proof.
  unfold GetTransactionCount. rewrite run_call_bind.
  by destruct (reply b _ s) as [nonce [e|]].
Qed.










(** [SendTransaction] for a sender of the registry that gave no nonce:
    the nonce is asked for, and a failure of that call leaves the
    arguments as they were. *)
Lemma SendTransaction_nonce_step (api : ethAPI) args key b s :
  accounts api !! sa_From args = Some key →
  sa_Nonce args = None →
  let e := backend_GetNonce (sa_From args) in
  run b (SendTransaction api args) s =
  let args' := match reply b e s with
               | (nonce, None) => set_Nonce args (Some nonce)
               | (_, Some _) => args
               end in
  let '(o, cs, s') := run b (signAndSend key args') (after b e s) in
  (o, called e :: cs, s').
Proof.
  intros Hk Hn. cbv zeta. unfold SendTransaction. rewrite Hk, Hn.
  rewrite run_call_bind.
  by destruct (reply b _ s) as [nonce [e|]].
Qed.

(** At startup a key that does not parse is logged and adds nothing to
    the registry. *)
Lemma loadTestAccounts_skip (testKeys : list string) (testKey : string) key er :
  HexToPrivKey testKey = (key, Some er) →
  loadTestAccounts (testKeys ++ [testKey]) =
    ((loadTestAccounts testKeys).1, (loadTestAccounts testKeys).2 ++ [(testKey, er)]).
Proof.
  intros Hk. unfold loadTestAccounts. rewrite foldl_app. simpl.
  destruct (foldl _ _ testKeys) as [accs logged]. by rewrite Hk.
Qed.


Lemma range_order_NoDup (api : ethAPI) order : range_order api order → NoDup order.
Proof.
  unfold range_order. intros ->. apply NoDup_fst_map_to_list.
Qed.

Lemma Accounts_eq api order : Accounts api order = (sort_Slice less order, None).
Proof. unfold Accounts. by rewrite range_loop_append. Qed.

(** C9. For every registry, [eth_accounts] returns the registry's
    addresses in ascending byte-lexicographic order (byte 0 first)
    without an error; whatever two orders the map is ranged over in,
    the two answers are the same list; and that list is the only sorted
    arrangement of the addresses, so it does not depend on how
    [sort.Slice] sorts. *)
Theorem Accounts_sorted_stable (api : ethAPI) (order1 order2 : list Address) :
  range_order api order1 → range_order api order2 →
  (Accounts api order1).2 = None ∧
  StronglySorted addr_lt (Accounts api order1).1 ∧
  (Accounts api order1).1 ≡ₚ (map_to_list (accounts api)).*1 ∧
  Accounts api order2 = Accounts api order1 ∧
  (∀ out, out ≡ₚ order1 → StronglySorted (fun x y => less x y = true) out →
          out = (Accounts api order1).1).
Proof.
  intros H1 H2. rewrite !Accounts_eq. simpl.
  pose proof (range_order_NoDup _ _ H1) as Hnd1.
  pose proof (range_order_NoDup _ _ H2) as Hnd2.
  split; [done|]. split; [|split; [|split]]; cycle 3.
  { intros out Hp Hs.
    by apply (sort_Slice_unique less less_irrefl less_trans less_total). }
  - apply StronglySorted_less.
    by apply (sort_Slice_sorted less less_irrefl less_trans less_total).
  - rewrite sort_Slice_perm. exact H1.
  - f_equal.
    apply (sort_Slice_unique less less_irrefl less_trans less_total); [done| |].
    + rewrite sort_Slice_perm. unfold range_order in *. by rewrite H1, H2.
    + by apply (sort_Slice_sorted less less_irrefl less_trans less_total).
Qed.

End FacadeProperties.

(** ** Examples on the concrete instance *)

Module Examples.
Import Fixtures.

Example loadTestAccounts_skips :
  loadTestAccounts ["aa"; ""; "b"] =
    (<[address_of 1 := 1]> (<[address_of 2 := 2]> ∅),
     [("", errorString "invalid hex string")]).
Proof. reflexivity. Qed.

Example Accounts_example :
  Accounts api2 [address_of 2; address_of 1] = ([address_of 1; address_of 2], None).
Proof. reflexivity. Qed.

Lemma address_of_1_2 : address_of 2 ≠ address_of 1.
Proof. intros H. apply (f_equal vec_to_list) in H. vm_compute in H. discriminate. Qed.

Lemma api2_accounts :
  accounts api2 = <[address_of 1 := 1]> (<[address_of 2 := 2]> ∅).
Proof. reflexivity. Qed.

Lemma api2_keys :
  (map_to_list (accounts api2)).*1 ≡ₚ [address_of 1; address_of 2].
Proof.
  rewrite api2_accounts.
  rewrite map_to_list_insert
    by (rewrite lookup_insert_ne by apply address_of_1_2; apply lookup_empty).
  rewrite map_to_list_insert by apply lookup_empty.
  by rewrite map_to_list_empty.
Qed.

Lemma range_order_api2_a : range_order api2 [address_of 2; address_of 1].
Proof. unfold range_order. rewrite api2_keys. apply perm_swap. Defined.

Lemma range_order_api2_b : range_order api2 [address_of 1; address_of 2].
Proof. unfold range_order. by rewrite api2_keys. Defined.

Lemma address_of_3_1 : address_of 1 ≠ address_of 3.
Proof. intros H. apply (f_equal vec_to_list) in H. vm_compute in H. discriminate. Qed.

Lemma address_of_3_2 : address_of 2 ≠ address_of 3.
Proof. intros H. apply (f_equal vec_to_list) in H. vm_compute in H. discriminate. Qed.

Lemma api2_unknown_3 : accounts api2 !! address_of 3 = None.
Proof.
  rewrite api2_accounts.
  rewrite lookup_insert_ne by apply address_of_3_1.
  rewrite lookup_insert_ne by apply address_of_3_2.
  apply lookup_empty.
Qed.

Lemma api2_known_2 : accounts api2 !! address_of 2 = Some 2.
Proof.
  rewrite api2_accounts.
  rewrite lookup_insert_ne by (intros H; by apply address_of_1_2).
  apply lookup_insert_eq.
Qed.

(** *** C1 *)

(** The price [eth_gasPrice] reports is not the price the builder puts
    into a call without [GasPrice]. *)
Lemma GasPrice_is_not_the_default_price :
  ¬ (∀ tx sender,
       createGethTxFromCallArgs no_args = (Some tx, sender, None) →
       GasPrice api2 = Some (tx_gasPrice tx)).
Proof.
  intros H. specialize (H _ _ eq_refl). vm_compute in H. discriminate.
Qed.

Lemma GasPrice_zero_not_default_price_witness :
  ca_GasPrice no_args = None ∧
  GasPrice api2 = Some 0 ∧
  ∃ tx sender,
    createGethTxFromCallArgs no_args = (Some tx, sender, None) ∧
    tx_gasPrice tx = 20000000000.
Proof.
  split; [reflexivity|].
  destruct (GasPrice_zero_not_default_price api2 no_args eq_refl)
    as (Hzero & tx & sender & Htx & Hprice & _).
  split; [exact Hzero|]. exists tx, sender. split; [exact Htx|exact Hprice].
Defined.

(** *** C2 *)

(** A storage failure, which is no "transaction not found", does not
    reach the client of [eth_getTransactionByHash] or of
    [eth_getTransactionReceipt]. *)
Lemma GetTransaction_storage_failure_is_dropped :
  reply (stub_backend broken) (backend_GetTransaction zeroHash) tt
    = (None, Some storage_failure) ∧
  ¬ (∃ v, result (stub_backend broken) (GetTransactionByHash zeroHash) tt
            = Returned (v, Some storage_failure)) ∧
  ¬ (∃ v, result (stub_backend broken) (GetTransactionReceipt zeroHash) tt
            = Returned (v, Some storage_failure)).
Proof.
  split; [reflexivity|]. split; intros [v H]; vm_compute in H; discriminate.
Qed.

Lemma GetTransaction_failure_is_null_witness :
  reply (stub_backend broken) (backend_GetTransaction zeroHash) tt
    = (None, Some storage_failure) ∧
  result (stub_backend broken) (GetTransactionByHash zeroHash) tt = Returned (None, None) ∧
  result (stub_backend broken) (GetTransactionReceipt zeroHash) tt = Returned (None, None).
Proof.
  split; [reflexivity|].
  exact (GetTransaction_failure_is_null (stub_backend broken) tt zeroHash None
           storage_failure eq_refl).
Defined.

(** *** C3 *)



(** *** C4 *)

Lemma Call_EstimateGas_by_status_witness :
  result (stub_backend healthy) (Call no_args LatestBlockNumber) tt
    = Returned ([x2a], None) ∧
  result (stub_backend healthy) (EstimateGas no_args) tt = Returned (21000, None) ∧
  result (stub_backend broken) (Call no_args LatestBlockNumber) tt
    = Returned ([], Some (toCallErr 2 [])) ∧
  result (stub_backend broken) (EstimateGas no_args) tt
    = Returned (0, Some (toCallErr 2 [])).
Proof.
  destruct (Call_EstimateGas_by_status no_args LatestBlockNumber (stub_backend healthy) tt)
    as (tx & sender & _ & Hcall & Hest).
  destruct (Call_EstimateGas_by_status no_args LatestBlockNumber (stub_backend broken) tt)
    as (tx' & sender' & _ & Hcall' & Hest').
  split; [exact (proj1 (Hcall 0 [x2a] eq_refl) eq_refl)|].
  split; [refine (proj2 (proj1 (Hest 0 [] 21000 eq_refl) eq_refl) _); lia|].
  split; [exact (proj2 (Hcall' 2 [] eq_refl) eq_refl)|].
  exact (proj2 (Hest' 2 [] 0 eq_refl) eq_refl).
Defined.

(** *** C5 *)

Lemma EstimateGas_defaults_witness :
  ∃ tx sender,
    calls (stub_backend healthy) (EstimateGas no_args) tt
      = [called (backend_EstimateGas (Some tx) sender)] ∧
    tx_gas tx = 10000000 ∧ tx_gasPrice tx = 20000000000 ∧ tx_value tx = 0.
Proof.
  exact (EstimateGas_defaults no_args (stub_backend healthy) tt eq_refl eq_refl eq_refl).
Defined.

(** *** C6 *)

Lemma SendTransaction_unknown_account_witness :
  accounts api2 !! address_of 3 = None ∧
  result (stub_backend healthy) (SendTransaction api2 (send_from (address_of 3))) tt
    = Returned (zeroHash,
        Some (errorString "unknown account: 0x0303030303030303030303030303030303030303")) ∧
  calls (stub_backend healthy) (SendTransaction api2 (send_from (address_of 3))) tt = [].
Proof.
  split; [exact api2_unknown_3|].
  exact (SendTransaction_unknown_account api2 (send_from (address_of 3))
           (stub_backend healthy) tt api2_unknown_3).
Defined.

(** *** C7 *)


(** *** C8 *)

Lemma tx_by_index_out_of_bounds_witness :
  result (stub_backend healthy) (GetTransactionByBlockNumberAndIndex 5 2) tt
    = Returned (None, None) ∧
  calls (stub_backend healthy) (GetTransactionByBlockNumberAndIndex 5 2) tt
    = [called (backend_BlockByNumber 5)] ∧
  result (stub_backend healthy) (GetTransactionByBlockHashAndIndex zeroHash 2) tt
    = Returned (None, None).
Proof.
  assert (N.of_nat (length (Transactions block7)) ≤ 2)%N as Hidx by (simpl; lia).
  destruct (tx_by_index_out_of_bounds (stub_backend healthy) tt block7 2 Hidx)
    as [Hnum Hhash].
  destruct (Hnum 5 eq_refl) as (Hres & Hcalls & _).
  split; [exact Hres|]. split; [exact Hcalls|].
  exact (proj1 (Hhash zeroHash eq_refl)).
Defined.

(** *** C9 *)

Lemma Accounts_sorted_stable_witness :
  range_order api2 [address_of 2; address_of 1] ∧
  range_order api2 [address_of 1; address_of 2] ∧
  Accounts api2 [address_of 1; address_of 2] = Accounts api2 [address_of 2; address_of 1] ∧
  StronglySorted addr_lt (Accounts api2 [address_of 2; address_of 1]).1.
Proof.
  split; [exact range_order_api2_a|]. split; [exact range_order_api2_b|].
  destruct (Accounts_sorted_stable api2 _ _ range_order_api2_a range_order_api2_b)
    as (_ & Hsorted & _ & Hsame & _).
  split; [exact Hsame|exact Hsorted].
Defined.

(** *** C10 *)

Lemma GetBalance_not_found_is_zero_witness :
  result (stub_backend no_account) (GetBalance (address_of 1) 5) tt
    = Returned (Some 0, None) ∧
  result (stub_backend broken) (GetBalance (address_of 1) 5) tt
    = Returned (None, Some storage_failure).
Proof.
  split.
  - exact (proj1 (GetBalance_not_found_is_zero (stub_backend no_account) tt
                    (address_of 1) 5 None ErrAccNotFound eq_refl) eq_refl).
  - refine (proj2 (GetBalance_not_found_is_zero (stub_backend broken) tt
                     (address_of 1) 5 None storage_failure eq_refl) _).
    discriminate.
Defined.

End Examples.

(** ** More properties of the facade *)

Section Registry.
Context `{Lib : Externals}.

(** The keys of [testKeys] that do not parse, with the error of each. *)
Definition failing_keys (testKeys : list string) : list (string * error) :=
  omap (fun testKey => match (HexToPrivKey testKey).2 with
                       | Some e => Some (testKey, e)
                       | None => None
                       end) testKeys.

Lemma loadTestAccounts_add (testKeys : list string) (testKey : string) key :
  HexToPrivKey testKey = (key, None) →
  loadTestAccounts (testKeys ++ [testKey]) =
    (<[PubkeyToAddress key := key]> (loadTestAccounts testKeys).1,
     (loadTestAccounts testKeys).2).
Proof.
  intros Hk. unfold loadTestAccounts. rewrite foldl_app. simpl.
  destruct (foldl _ _ testKeys) as [accs logged]. by rewrite Hk.
Qed.

(** X1. Every entry of the registry built at startup comes from a configured
    key that parsed, and sits under the address of that key. *)
Theorem loadTestAccounts_sound (testKeys : list string) (a : Address) (k : PrivKey) :
  (loadTestAccounts testKeys).1 !! a = Some k →
  ∃ testKey, testKey ∈ testKeys ∧ HexToPrivKey testKey = (k, None) ∧
             PubkeyToAddress k = a.
Proof.
  induction testKeys as [|testKey testKeys IH] using rev_ind; [done|].
  destruct (HexToPrivKey testKey) as [key [e|]] eqn:Hk.
  - rewrite (loadTestAccounts_skip _ _ _ _ Hk). simpl. intros Ha.
    destruct (IH Ha) as (t & Ht & Hp). exists t.
    split; [apply elem_of_app; by left|done].
  - rewrite (loadTestAccounts_add _ _ _ Hk). simpl.
    destruct (decide (PubkeyToAddress key = a)) as [<-|Hne].
    + rewrite lookup_insert_eq. intros [= <-].
      exists testKey. split; [|done].
      apply elem_of_app. right. by apply list_elem_of_singleton.
    + rewrite lookup_insert_ne by done. intros Ha.
      destruct (IH Ha) as (t & Ht & Hp). exists t.
      split; [apply elem_of_app; by left|done].
Qed.

(** X2. The address of every configured key that parses is in the registry
    built at startup. *)
Theorem loadTestAccounts_complete (testKeys : list string) (testKey : string) (k : PrivKey) :
  testKey ∈ testKeys → HexToPrivKey testKey = (k, None) →
  is_Some ((loadTestAccounts testKeys).1 !! PubkeyToAddress k).
Proof.
  induction testKeys as [|t testKeys IH] using rev_ind.
  { intros Hin. by apply elem_of_nil in Hin. }
  intros Hin Hk.
  assert (is_Some ((<[PubkeyToAddress k := k]> (loadTestAccounts testKeys).1)
                     !! PubkeyToAddress k)) as Hnew.
  { rewrite lookup_insert_eq. by eexists. }
  destruct (HexToPrivKey t) as [key [e|]] eqn:Ht.
  - rewrite (loadTestAccounts_skip _ _ _ _ Ht). simpl.
    apply elem_of_app in Hin as [Hin|Hin]; [by apply IH|].
    apply list_elem_of_singleton in Hin as ->. congruence.
  - rewrite (loadTestAccounts_add _ _ _ Ht). simpl.
    apply elem_of_app in Hin as [Hin|Hin].
    + destruct (decide (PubkeyToAddress key = PubkeyToAddress k)) as [->|Hne].
      * rewrite lookup_insert_eq. by eexists.
      * rewrite lookup_insert_ne by done. by apply IH.
    + apply list_elem_of_singleton in Hin as ->.
      assert (key = k) as -> by congruence. done.
Qed.

(** X3. What startup logs is exactly the keys that do not parse, in the
    order they were configured, each with its error; and a key counts
    once, for the registry or for the log. *)
Theorem loadTestAccounts_log (testKeys : list string) :
  (loadTestAccounts testKeys).2 = failing_keys testKeys ∧
  (size (loadTestAccounts testKeys).1 + length (loadTestAccounts testKeys).2
     ≤ length testKeys)%nat.
Proof.
  induction testKeys as [|t testKeys [IHlog IHsize]] using rev_ind.
  - split; [done|]. simpl. rewrite map_size_empty. lia.
  - unfold failing_keys in *. rewrite omap_app, length_app. simpl.
    destruct (HexToPrivKey t) as [key [e|]] eqn:Ht.
    + rewrite (loadTestAccounts_skip _ _ _ _ Ht). simpl.
      rewrite IHlog, length_app. simpl. split; [done|].
      rewrite <-IHlog. lia.
    + rewrite (loadTestAccounts_add _ _ _ Ht). simpl.
      rewrite app_nil_r. split; [done|].
      pose proof (map_size_insert (PubkeyToAddress key) key (loadTestAccounts testKeys).1) as Hs.
      destruct ((loadTestAccounts testKeys).1 !! PubkeyToAddress key);
        simpl in Hs; unfold id in Hs; lia.
Qed.

End Registry.

Section Listing.
Context `{Lib : Externals}.

Lemma registry_keys_elem (api : ethAPI) (a : Address) :
  a ∈ (map_to_list (accounts api)).*1 ↔ is_Some (accounts api !! a).
Proof.
  rewrite list_elem_of_fmap. split.
  - intros ([a' k] & -> & Hin). apply elem_of_map_to_list in Hin. by eexists.
  - intros [k Hk]. exists (a, k). split; [done|]. by apply elem_of_map_to_list.
Qed.

Lemma Accounts_perm (api : ethAPI) (order : list Address) :
  range_order api order →
  (Accounts api order).1 ≡ₚ (map_to_list (accounts api)).*1.
Proof.
  intros Hr. rewrite Accounts_eq. simpl. rewrite sort_Slice_perm. exact Hr.
Qed.

Lemma Accounts_elem (api : ethAPI) (order : list Address) (a : Address) :
  range_order api order →
  a ∈ (Accounts api order).1 ↔ is_Some (accounts api !! a).
Proof. intros Hr. rewrite (Accounts_perm _ _ Hr). apply registry_keys_elem. Qed.

(** X4. Whatever order the map is ranged over in, [eth_accounts] lists every
    address of the registry, each one once, and nothing else. *)
Theorem Accounts_lists_registry (api : ethAPI) (order : list Address) :
  range_order api order →
  NoDup (Accounts api order).1 ∧
  (∀ a, a ∈ (Accounts api order).1 ↔ is_Some (accounts api !! a)) ∧
  length (Accounts api order).1 = size (accounts api).
Proof.
  intros Hr. pose proof (Accounts_perm _ _ Hr) as Hp.
  split; [|split].
  - rewrite Hp. apply NoDup_fst_map_to_list.
  - intros a. by apply Accounts_elem.
  - rewrite Hp, length_fmap. apply length_map_to_list.
Qed.

(** X5. The addresses [eth_accounts] lists are the senders
    [eth_sendTransaction] signs for: a sender that is not listed is
    turned away before any backend call; for a listed sender with a
    nonce the method goes straight to building and signing with that
    sender's key, and for a listed sender without one its first backend
    call asks for the sender's nonce. *)
Theorem Accounts_are_the_signers (api : ethAPI) (order : list Address)
    (args : SendTxArgs) b s :
  range_order api order →
  (sa_From args ∉ (Accounts api order).1 →
     run b (SendTransaction api args) s =
       (Returned (zeroHash,
          Some (errors_New ("unknown account: " +:+ Hex (sa_From args)))), [], s)) ∧
  (sa_From args ∈ (Accounts api order).1 →
     ∃ key, accounts api !! sa_From args = Some key ∧
       (is_Some (sa_Nonce args) →
          run b (SendTransaction api args) s = run b (signAndSend key args) s) ∧
       (sa_Nonce args = None →
          ∃ rest, calls b (SendTransaction api args) s =
                    called (backend_GetNonce (sa_From args)) :: rest)).
Proof.
  intros Hr.
  pose proof (fun a => Accounts_elem api order a Hr) as Hin.
  split.
  - rewrite Hin. intros Hnot.
    destruct (accounts api !! sa_From args) as [key|] eqn:Hk.
    { destruct Hnot. by eexists. }
    unfold SendTransaction. by rewrite Hk.
  - rewrite Hin. intros [key Hk]. exists key. split; [done|]. split.
    + intros [n Hn]. unfold SendTransaction. by rewrite Hk, Hn.
    + intros Hn. unfold calls.
      rewrite (SendTransaction_nonce_step api args key b s Hk Hn).
      cbv zeta. destruct (run b (signAndSend key _) _) as [[o cs] s'].
      by exists cs.
Qed.

End Listing.

(** ** The address order as a number order *)

(** The number a byte string spells, most significant byte first. *)
Fixpoint be_value (l : list N) : N :=
  match l with
  | [] => 0
  | a :: l' => a * 256 ^ N.of_nat (length l') + be_value l'
  end%N.

Definition addr_value (a : Address) : N := be_value (addr_bytes a).

Lemma be_value_bound l :
  Forall (fun a => a < 256)%N l → (be_value l < 256 ^ N.of_nat (length l))%N.
Proof.
  induction 1 as [|a l Ha Hl IH]; simpl length; simpl be_value; [simpl; lia|].
  rewrite Nat2N.inj_succ, N.pow_succ_r'. nia.
Qed.

Lemma lex_ltb_be_value l m :
  length l = length m →
  Forall (fun a => a < 256)%N l → Forall (fun a => a < 256)%N m →
  lex_ltb l m = true ↔ (be_value l < be_value m)%N.
Proof.
  revert m. induction l as [|a l IH]; intros [|b m]; try done.
  intros [= Hlen] Hl Hm.
  apply Forall_cons in Hl as [Ha Hl]. apply Forall_cons in Hm as [Hb Hm].
  pose proof (be_value_bound l Hl) as Bl.
  pose proof (be_value_bound m Hm) as Bm.
  simpl lex_ltb. simpl be_value. rewrite Hlen in Bl. rewrite Hlen.
  destruct (N.ltb_spec a b); [|destruct (N.ltb_spec b a)].
  - split; [intros _; nia|done].
  - split; [done|intros; nia].
  - assert (a = b) as -> by lia. rewrite (IH m Hlen Hl Hm). lia.
Qed.

Lemma addr_bytes_small (a : Address) : Forall (fun n => n < 256)%N (addr_bytes a).
Proof.
  unfold addr_bytes. apply Forall_fmap, Forall_forall. intros b _. simpl.
  pose proof (Byte.to_N_bounded b). lia.
Qed.

(** X6. The closure of [Accounts] is a strict total order on addresses,
    which is what [sort.Slice] asks of it. *)
Theorem less_strict_total_order :
  (∀ x, less x x = false) ∧
  (∀ x y z, less x y = true → less y z = true → less x z = true) ∧
  (∀ x y, less x y = true → less y x = false) ∧
  (∀ x y, less x y = false → less y x = false → x = y).
Proof.
  split; [exact less_irrefl|]. split; [exact less_trans|]. split.
  - intros x y Hxy. destruct (less y x) eqn:Hyx; [|done].
    pose proof (less_trans _ _ _ Hxy Hyx) as Hxx. by rewrite less_irrefl in Hxx.
  - intros x y Hxy Hyx. destruct (decide (x = y)) as [|Hne]; [done|].
    destruct (less_total x y Hne); congruence.
Qed.

(** X7. The closure of [Accounts] orders addresses as the 160-bit numbers
    they spell with byte 0 as the most significant byte. *)
Theorem less_is_big_endian_order (x y : Address) :
  less x y = true ↔ (addr_value x < addr_value y)%N.
Proof.
  rewrite less_lex. unfold addr_value.
  apply lex_ltb_be_value; [by rewrite !length_addr_bytes|apply addr_bytes_small..].
Qed.

(** ** Blocks and the transactions in them *)

Section Blocks.
Context `{Lib : Externals}.

(** The lookup [getBlockByNum] makes for a block number. *)
Definition lookup_by_number (blockNum : Z) : BackendE (option Block * option error) :=
  if blockNum <=? 0 then backend_CurrentBlock else backend_BlockByNumber blockNum.

Lemma getBlockByNum_lookup blockNum :
  getBlockByNum blockNum = call (lookup_by_number blockNum).
Proof. unfold getBlockByNum, lookup_by_number. by destruct (blockNum <=? 0). Qed.

(** X8. A block the backend does not know, by hash or by number, gives
    null and no error, also when full transactions were asked for, and
    the lookup is the only backend call. *)
Theorem block_not_found_is_null b s (fullTx : bool) :
  (∀ hash blk,
     reply b (backend_BlockByHash hash) s = (blk, Some ErrBlockNotFound) →
     run b (GetBlockByHash hash fullTx) s =
       (Returned (None, None), [called (backend_BlockByHash hash)],
        after b (backend_BlockByHash hash) s)) ∧
  (∀ blockNum blk,
     reply b (lookup_by_number blockNum) s = (blk, Some ErrBlockNotFound) →
     run b (GetBlockByNumber blockNum fullTx) s =
       (Returned (None, None), [called (lookup_by_number blockNum)],
        after b (lookup_by_number blockNum) s)).
Proof.
  split.
  - intros hash blk Hr. unfold GetBlockByHash.
    by rewrite (block_request_failed _ _ _ _ _ _ Hr).
  - intros blockNum blk Hr. unfold GetBlockByNumber.
    rewrite getBlockByNum_lookup.
    by rewrite (block_request_failed _ _ _ _ _ _ Hr).
Qed.

(** X9. For a block that is found, [eth_getBlockByHash] without full
    transactions makes no further backend call; with full transactions
    it makes one, for the transaction list at the block's number cut to
    32 bits. If that call fails the request fails with its error and
    returns no block; if it succeeds the response is made of the block
    and the list. *)
Theorem GetBlockByHash_expansion b s (hash : Hash) (blk : Block) :
  reply b (backend_BlockByHash hash) s = (Some blk, None) →
  let s1 := after b (backend_BlockByHash hash) s in
  let e2 := backend_GetTxListByHeight (Number blk mod 2 ^ 32) in
  run b (GetBlockByHash hash false) s =
    (Returned (blockToRpcResp (Some blk) [], None),
     [called (backend_BlockByHash hash)], s1) ∧
  calls b (GetBlockByHash hash true) s = [called (backend_BlockByHash hash); called e2] ∧
  (∀ txs, reply b e2 s1 = (txs, None) →
     result b (GetBlockByHash hash true) s =
       Returned (blockToRpcResp (Some blk) txs, None)) ∧
  (∀ txs er, reply b e2 s1 = (txs, Some er) →
     result b (GetBlockByHash hash true) s = Returned (None, Some er)).
Proof.
  intros Hr. cbv zeta. unfold result, calls, GetBlockByHash.
  rewrite !(block_request_found _ _ _ _ _ Hr). cbv zeta. unfold to_uint32.
  split; [done|]. split; [done|].
  split; [intros txs Hr2|intros txs er Hr2]; by rewrite Hr2.
Qed.

(** X10. The same for [eth_getBlockByNumber], whichever lookup the block
    number stands for. *)
Theorem GetBlockByNumber_expansion b s (blockNum : Z) (blk : Block) :
  reply b (lookup_by_number blockNum) s = (Some blk, None) →
  let s1 := after b (lookup_by_number blockNum) s in
  let e2 := backend_GetTxListByHeight (Number blk mod 2 ^ 32) in
  run b (GetBlockByNumber blockNum false) s =
    (Returned (blockToRpcResp (Some blk) [], None),
     [called (lookup_by_number blockNum)], s1) ∧
  calls b (GetBlockByNumber blockNum true) s =
    [called (lookup_by_number blockNum); called e2] ∧
  (∀ txs, reply b e2 s1 = (txs, None) →
     result b (GetBlockByNumber blockNum true) s =
       Returned (blockToRpcResp (Some blk) txs, None)) ∧
  (∀ txs er, reply b e2 s1 = (txs, Some er) →
     result b (GetBlockByNumber blockNum true) s = Returned (None, Some er)).
Proof.
  intros Hr. cbv zeta. unfold result, calls, GetBlockByNumber.
  rewrite getBlockByNum_lookup.
  rewrite !(block_request_found _ _ _ _ _ Hr). cbv zeta. unfold to_uint32.
  split; [done|]. split; [done|].
  split; [intros txs Hr2|intros txs er Hr2]; by rewrite Hr2.
Qed.

Lemma getTxByIdx_fetch b s (blk : Block) (idx : N) :
  (idx < N.of_nat (length (Transactions blk)))%N →
  ∃ txHash,
    Transactions blk !! N.to_nat idx = Some txHash ∧
    run b (getTxByIdx (Some blk) idx) s =
      (Returned
         match reply b (backend_GetTransaction txHash) s with
         | (_, Some er) => (None, Some er)
         | (tx, None) => (txToRpcResp tx, None)
         end,
       [called (backend_GetTransaction txHash)],
       after b (backend_GetTransaction txHash) s).
Proof.
  intros Hlt.
  destruct (Transactions blk !! N.to_nat idx) as [txHash|] eqn:Hl.
  2:{ apply lookup_ge_None in Hl. lia. }
  exists txHash. split; [done|]. unfold getTxByIdx.
  destruct (N.leb_spec (N.of_nat (length (Transactions blk))) idx); [lia|].
  rewrite Hl, run_call_bind.
  by destruct (reply b _ s) as [tx [er|]].
Qed.

Lemma getTxByIdx_no_panic b s (blk : Block) (idx : N) :
  result b (getTxByIdx (Some blk) idx) s ≠ Panicked.
Proof.
  destruct (N.le_gt_cases (N.of_nat (length (Transactions blk))) idx) as [Hge|Hlt].
  - by rewrite (getTxByIdx_out_of_bounds _ _ Hge).
  - destruct (getTxByIdx_fetch b s blk idx Hlt) as (txHash & _ & Hrun).
    unfold result. by rewrite Hrun.
Qed.

(** X11. [getTxByIdx] on a block: an index inside the block fetches the
    transaction whose hash the block holds at that index, once, and
    shapes it or hands on the error; the guard keeps the indexing in
    bounds, so the method never panics. *)
Theorem getTxByIdx_in_bounds b s (blk : Block) (idx : N) :
  result b (getTxByIdx (Some blk) idx) s ≠ Panicked ∧
  ((idx < N.of_nat (length (Transactions blk)))%N →
     ∃ txHash,
       Transactions blk !! N.to_nat idx = Some txHash ∧
       run b (getTxByIdx (Some blk) idx) s =
         (Returned
            match reply b (backend_GetTransaction txHash) s with
            | (_, Some er) => (None, Some er)
            | (tx, None) => (txToRpcResp tx, None)
            end,
          [called (backend_GetTransaction txHash)],
          after b (backend_GetTransaction txHash) s)).
Proof.
  split; [apply getTxByIdx_no_panic|apply getTxByIdx_fetch].
Qed.

(** X12. The count [eth_getBlockTransactionCountByHash] reports and the
    indices [eth_getTransactionByBlockHashAndIndex] serves agree: for a
    block that is found, a transaction is fetched exactly for the
    indices below the count, and it is the one at that place in the
    block. *)
Theorem count_bounds_the_indices b s (hash : Hash) (blk : Block) (idx : N) :
  reply b (backend_BlockByHash hash) s = (Some blk, None) →
  ∃ n : Z,
    result b (GetBlockTransactionCountByHash hash) s = Returned (Some n) ∧
    n = Z.of_nat (length (Transactions blk)) ∧
    (Z.of_N idx < n →
       ∃ txHash, Transactions blk !! N.to_nat idx = Some txHash ∧
         calls b (GetTransactionByBlockHashAndIndex hash idx) s =
           [called (backend_BlockByHash hash); called (backend_GetTransaction txHash)]) ∧
    (n ≤ Z.of_N idx →
       calls b (GetTransactionByBlockHashAndIndex hash idx) s =
         [called (backend_BlockByHash hash)]).
Proof.
  intros Hr. exists (Z.of_nat (length (Transactions blk))).
  unfold result, calls, GetBlockTransactionCountByHash,
    GetTransactionByBlockHashAndIndex.
  rewrite !run_call_bind, Hr. unfold countResponse, txByIdxResponse.
  split; [done|]. split; [done|]. split.
  - intros Hlt.
    destruct (getTxByIdx_fetch b (after b (backend_BlockByHash hash) s) blk idx)
      as (txHash & Hl & Hrun); [lia|].
    exists txHash. split; [done|]. by rewrite Hrun.
  - intros Hge. rewrite getTxByIdx_out_of_bounds by lia. done.
Qed.


End Blocks.

(** ** Submitting transactions *)

Section Sending.
Context `{Lib : Externals}.

Definition is_SendRawTx (c : BackendCall) : bool :=
  match c with
  | called e => match e with backend_SendRawTx _ => true | _ => false end
  end.

Definition is_GetNonce (c : BackendCall) : bool :=
  match c with
  | called e => match e with backend_GetNonce _ => true | _ => false end
  end.

Lemma SendRawTransaction_accepted b s (data : bytes) t ack :
  DecodeTx data = (Some t, None) →
  reply b (backend_SendRawTx data) s = (ack, None) →
  result b (SendRawTransaction data) s = Returned (tx_Hash t, None).
Proof.
  intros Hd Hr. unfold result, SendRawTransaction.
  by rewrite Hd, run_call_bind, Hr.
Qed.

(** X14. [eth_sendRawTransaction]: bytes that do not decode are never
    submitted; bytes that decode are submitted once and as they came;
    and after a successful submission the hash returned is the decoded
    transaction's own, whatever hash the backend acknowledged. *)
Theorem SendRawTransaction_submits_verbatim b s (data : bytes) :
  (∀ tx er, DecodeTx data = (tx, Some er) →
     calls b (SendRawTransaction data) s = []) ∧
  (∀ tx, DecodeTx data = (tx, None) →
     calls b (SendRawTransaction data) s = [called (backend_SendRawTx data)]) ∧
  (∀ t ack, DecodeTx data = (Some t, None) →
     reply b (backend_SendRawTx data) s = (ack, None) →
     result b (SendRawTransaction data) s = Returned (tx_Hash t, None)).
Proof.
  unfold calls, result, SendRawTransaction. split; [|split].
  - intros tx er Hd. by rewrite Hd.
  - intros tx Hd. rewrite Hd, run_call_bind.
    destruct (reply b _ s) as [ack [er|]]; [done|]. by destruct tx.
  - intros t ack Hd Hr. by apply (SendRawTransaction_accepted b s data t ack).
Qed.

(** The backend calls of the build-sign-send part of
    [eth_sendTransaction]: none if building fails, the chain id alone if
    signing or encoding fails, and otherwise the chain id followed by one
    submission, of the encoding of the signed transaction. *)
Lemma signAndSend_calls b s (key : PrivKey) (args : SendTxArgs) :
  calls b (signAndSend key args) s =
  let built := createGethTxFromSendTxArgs args in
  let signed := SignTx built.1 (reply b backend_ChainId s) key in
  let encoded := EncodeTx signed.1 in
  match built.2 with
  | Some _ => []
  | None =>
      match signed.2, encoded.2 with
      | None, None => [called backend_ChainId; called (backend_SendRawTx encoded.1)]
      | _, _ => [called backend_ChainId]
      end
  end.
Proof.
  unfold calls, signAndSend. cbv zeta.
  destruct (createGethTxFromSendTxArgs args) as [tx0 [e0|]]; [done|].
  cbn [fst snd]. rewrite run_call_bind.
  destruct (SignTx tx0 _ key) as [tx1 [e1|]]; [done|].
  cbn [fst snd].
  destruct (EncodeTx tx1) as [txBytes [e2|]]; [done|].
  cbn [fst snd]. rewrite run_call_bind.
  destruct (reply b (backend_SendRawTx txBytes) _) as [ack [e3|]]; [done|].
  by destruct tx1.
Qed.

(** X15. [eth_sendTransaction] submits nothing unless building, signing and
    encoding all succeeded, and then it submits once. *)
Theorem SendTransaction_submits_only_signed (api : ethAPI) (args : SendTxArgs) b s :
  (length (filter (fun c => is_SendRawTx c = true)
             (calls b (SendTransaction api args) s)) ≤ 1)%nat ∧
  (∀ key, accounts api !! sa_From args = Some key →
     is_Some (sa_Nonce args) →
     (createGethTxFromSendTxArgs args).2 ≠ None ∨
     (SignTx (createGethTxFromSendTxArgs args).1 (reply b backend_ChainId s) key).2 ≠ None ∨
     (EncodeTx (SignTx (createGethTxFromSendTxArgs args).1
                  (reply b backend_ChainId s) key).1).2 ≠ None →
     Forall (fun c => is_SendRawTx c = false) (calls b (SendTransaction api args) s)).
Proof.
  assert (∀ key args' s',
            length (filter (fun c => is_SendRawTx c = true)
                      (calls b (signAndSend key args') s')) ≤ 1)%nat as Hone.
  { intros key args' s'. rewrite signAndSend_calls. cbv zeta.
    destruct (createGethTxFromSendTxArgs args').2; [simpl; lia|].
    destruct (SignTx _ _ key).2; [simpl; lia|].
    destruct (EncodeTx _).2; simpl; lia. }
  split.
  - destruct (accounts api !! sa_From args) as [key|] eqn:Hk.
    2:{ unfold calls, SendTransaction. rewrite Hk. simpl. lia. }
    destruct (sa_Nonce args) as [n|] eqn:Hn.
    + unfold calls, SendTransaction. rewrite Hk, Hn. apply Hone.
    + unfold calls.
      rewrite (SendTransaction_nonce_step api args key b s Hk Hn). cbv zeta.
      match goal with
      | |- context [run b (signAndSend key ?a) ?s'] =>
          specialize (Hone key a s'); unfold calls in Hone;
          destruct (run b (signAndSend key a) s') as [[o cs] s'']
      end.
      simpl in *. done.
  - intros key Hk [n Hn] Hfail.
    unfold calls, SendTransaction. rewrite Hk, Hn.
    fold (calls b (signAndSend key args) s). rewrite signAndSend_calls. cbv zeta.
    destruct (createGethTxFromSendTxArgs args).2; [constructor|].
    destruct (SignTx _ _ key).2; [by repeat constructor|].
    destruct (EncodeTx _).2; [by repeat constructor|].
    by destruct Hfail as [|[|]].
Qed.

(** X16. A nonce given by the caller is used as it is: the backend is not
    asked for one. *)
Theorem SendTransaction_given_nonce (api : ethAPI) (args : SendTxArgs) b s :
  is_Some (sa_Nonce args) →
  Forall (fun c => is_GetNonce c = false) (calls b (SendTransaction api args) s).
Proof.
  intros [n Hn].
  destruct (accounts api !! sa_From args) as [key|] eqn:Hk.
  2:{ unfold calls, SendTransaction. rewrite Hk. constructor. }
  unfold calls, SendTransaction. rewrite Hk, Hn.
  fold (calls b (signAndSend key args) s). rewrite signAndSend_calls. cbv zeta.
  destruct (createGethTxFromSendTxArgs args).2; [constructor|].
  destruct (SignTx _ _ key).2; [by repeat constructor|].
  destruct (EncodeTx _).2; by repeat constructor.
Qed.

(** X17. The whole of a successful [eth_sendTransaction] without a nonce:
    the nonce the backend reports is put into the arguments, every other
    field staying as the caller gave it; the transaction built from them
    is signed with the sender's key and the backend's chain id, encoded
    and submitted; the hash returned is the signed transaction's own,
    whatever hash the backend acknowledged. *)
Theorem SendTransaction_pipeline (api : ethAPI) (args : SendTxArgs) b s
    key nonce tx0 signed txBytes ack :
  accounts api !! sa_From args = Some key →
  sa_Nonce args = None →
  reply b (backend_GetNonce (sa_From args)) s = (nonce, None) →
  let s1 := after b (backend_GetNonce (sa_From args)) s in
  let args' := {| sa_From := sa_From args; sa_To := sa_To args; sa_Gas := sa_Gas args;
                  sa_GasPrice := sa_GasPrice args; sa_Value := sa_Value args;
                  sa_Nonce := Some nonce; sa_Data := sa_Data args;
                  sa_Input := sa_Input args |} in
  createGethTxFromSendTxArgs args' = (tx0, None) →
  SignTx tx0 (reply b backend_ChainId s1) key = (Some signed, None) →
  EncodeTx (Some signed) = (txBytes, None) →
  reply b (backend_SendRawTx txBytes) (after b backend_ChainId s1) = (ack, None) →
  result b (SendTransaction api args) s = Returned (tx_Hash signed, None) ∧
  calls b (SendTransaction api args) s =
    [called (backend_GetNonce (sa_From args)); called backend_ChainId;
     called (backend_SendRawTx txBytes)].
Proof.
  intros Hk Hn Hr s1 args' Hb Hs He Hsub.
  unfold result, calls.
  rewrite (SendTransaction_nonce_step api args key b s Hk Hn), Hr. cbv zeta.
  fold s1. change (set_Nonce args (Some nonce)) with args'.
  unfold signAndSend. rewrite Hb.
  rewrite run_call_bind, Hs, He.
  by rewrite run_call_bind, Hsub.
Qed.


End Sending.

(** ** Calls *)

Section Calls.
Context `{Lib : Externals}.

(** X19. [eth_call] and [eth_estimateGas] hand the backend the same
    transaction and the same sender for the same arguments, in one call
    each: nonce 0, a recipient that is always there (the zero address
    when none was given, so the transaction never is a contract
    creation), and every field the caller gave passed on as it is. *)
Theorem Call_EstimateGas_same_transaction (args : CallArgs) (blockNr : Z) b s :
  ∃ tx sender,
    calls b (Call args blockNr) s = [called (backend_Call (Some tx) sender)] ∧
    calls b (EstimateGas args) s = [called (backend_EstimateGas (Some tx) sender)] ∧
    sender = default zeroAddress (ca_From args) ∧
    tx_nonce tx = 0 ∧
    tx_to tx = Some (default zeroAddress (ca_To args)) ∧
    tx_value tx = default 0 (ca_Value args) ∧
    tx_gas tx = default DefaultRPCGasLimit (ca_Gas args) ∧
    tx_gasPrice tx = default DefaultGasPrice (ca_GasPrice args) ∧
    tx_data tx = default [] (ca_Data args).
Proof.
  destruct (createGethTxFromCallArgs_ok args) as (tx & Htx & Hfields).
  destruct (Call_run b s args blockNr) as (tx1 & Htx1 & Hcall).
  destruct (EstimateGas_run b s args) as (tx2 & Htx2 & Hest).
  assert (tx1 = tx) as -> by congruence.
  assert (tx2 = tx) as -> by congruence.
  exists tx, (default zeroAddress (ca_From args)).
  unfold calls. rewrite Hcall, Hest. simpl. by repeat split; try apply Hfields.
Qed.

(** X20. The block number of [eth_getBalance], [eth_getCode],
    [eth_getTransactionCount] and [eth_call] has no effect: the balance
    and the code are asked for at the latest block (-1), the nonce and
    the call without any height, so two requests that differ in the
    block number only run alike. *)
Theorem block_number_is_ignored b s (addr : Address) (args : CallArgs) (bn1 bn2 : Z) :
  run b (GetBalance addr bn1) s = run b (GetBalance addr bn2) s ∧
  run b (GetCode addr bn1) s = run b (GetCode addr bn2) s ∧
  run b (GetTransactionCount addr bn1) s = run b (GetTransactionCount addr bn2) s ∧
  run b (Call args bn1) s = run b (Call args bn2) s ∧
  calls b (GetBalance addr bn1) s = [called (backend_GetBalance addr (-1))] ∧
  calls b (GetCode addr bn1) s = [called (backend_GetCode addr (-1))] ∧
  calls b (GetTransactionCount addr bn1) s = [called (backend_GetNonce addr)].
Proof.
  unfold calls.
  rewrite !GetBalance_run, !GetCode_run, !GetTransactionCount_run.
  by repeat split.
Qed.

End Calls.

(** ** The debug API *)

Module DebugFacts.
Import Debug.

Lemma wrap_int64_small z : - 2 ^ 63 ≤ z < 2 ^ 63 → wrap_int64 z = z.
Proof. intros Hz. unfold wrap_int64. rewrite Z.mod_small; lia. Qed.

Lemma CompareAndSwap_own api new :
  CompareAndSwap_lastUpdateTime api (lastUpdateTime api) new =
    (true, {| lastUpdateTime := new; stats := stats api |}).
Proof. unfold CompareAndSwap_lastUpdateTime. by rewrite Z.eqb_refl. Qed.

Lemma GetStats_late now rt api :
  wrap_int64 (lastUpdateTime api + StatusUpdateInterval) < now →
  GetStats now rt api =
    (stats (updateStats rt api),
     {| lastUpdateTime := now; stats := stats (updateStats rt api) |}).
Proof.
  intros Hlt. unfold GetStats. cbv zeta.
  destruct (Z.ltb_spec (wrap_int64 (lastUpdateTime api + StatusUpdateInterval)) now);
    [|lia].
  by rewrite CompareAndSwap_own.
Qed.

Lemma GetStats_early now rt api :
  now ≤ wrap_int64 (lastUpdateTime api + StatusUpdateInterval) →
  GetStats now rt api = (stats api, api).
Proof.
  intros Hle. unfold GetStats. cbv zeta.
  destruct (Z.ltb_spec (wrap_int64 (lastUpdateTime api + StatusUpdateInterval)) now);
    [lia|done].
Qed.

(** X21. [GetStats] with one caller: up to 60 seconds after the last update
    it returns the stored statistics and changes nothing, whatever the
    runtime reports; later than that it reads the runtime, stores and
    returns what it read, and sets the time of the last update to now.
    (The time of the last update plus 60 is taken to fit [int64].) *)
Theorem GetStats_interval (now : Z) (rt : Runtime) (api : debugAPI) :
  - 2 ^ 63 ≤ lastUpdateTime api + 60 < 2 ^ 63 →
  (now ≤ lastUpdateTime api + 60 → GetStats now rt api = (stats api, api)) ∧
  (lastUpdateTime api + 60 < now →
     GetStats now rt api =
       (stats (updateStats rt api),
        {| lastUpdateTime := now; stats := stats (updateStats rt api) |})).
Proof.
  intros Hfit.
  pose proof (wrap_int64_small _ Hfit) as Hw.
  split; intros Hnow.
  - apply GetStats_early. unfold StatusUpdateInterval. lia.
  - apply GetStats_late. unfold StatusUpdateInterval. lia.
Qed.

(** X22. After an update at time [now1], a second request no more than 60
    seconds later gets the statistics of the first, even when the
    runtime reports other numbers by then. *)
Theorem GetStats_twice (now1 now2 : Z) (rt1 rt2 : Runtime) (api : debugAPI) :
  - 2 ^ 63 ≤ lastUpdateTime api + 60 < 2 ^ 63 →
  lastUpdateTime api + 60 < now1 →
  now1 + 60 < 2 ^ 63 →
  now2 ≤ now1 + 60 →
  let '(stats1, api1) := GetStats now1 rt1 api in
  GetStats now2 rt2 api1 = (stats1, api1).
Proof.
  intros Hfit Hlate Hfit1 Hsoon.
  rewrite GetStats_late
    by (rewrite wrap_int64_small; unfold StatusUpdateInterval; lia).
  cbv beta iota.
  apply (GetStats_early now2 rt2
           {| lastUpdateTime := now1; stats := stats (updateStats rt1 api) |}).
  simpl. rewrite wrap_int64_small; unfold StatusUpdateInterval; lia.
Qed.


(** X24. [updateStats] reports memory in whole mebibytes, rounded down, and
    leaves the time of the last update alone. *)
Theorem updateStats_megabytes (rt : Runtime) (api : debugAPI) :
  0 ≤ rt_Alloc rt → 0 ≤ rt_Sys rt →
  let st := stats (updateStats rt api) in
  MemAllocMB st * 2 ^ 20 ≤ rt_Alloc rt < (MemAllocMB st + 1) * 2 ^ 20 ∧
  MemSysMB st * 2 ^ 20 ≤ rt_Sys rt < (MemSysMB st + 1) * 2 ^ 20 ∧
  NumGoroutine st = rt_NumGoroutine rt ∧
  NumGC st = rt_NumGC rt ∧
  lastUpdateTime (updateStats rt api) = lastUpdateTime api.
Proof.
  intros Ha Hs. simpl.
  rewrite !Z.div_div by lia.
  change (1024 * 1024) with (2 ^ 20).
  pose proof (Z.mul_div_le (rt_Alloc rt) (2 ^ 20)).
  pose proof (Z.mul_succ_div_gt (rt_Alloc rt) (2 ^ 20)).
  pose proof (Z.mul_div_le (rt_Sys rt) (2 ^ 20)).
  pose proof (Z.mul_succ_div_gt (rt_Sys rt) (2 ^ 20)).
  lia.
Qed.

End DebugFacts.

(** ** More examples on the concrete instances *)

Module MoreExamples.
Import Fixtures Fixtures2.

Lemma loadTestAccounts_sound_witness :
  (loadTestAccounts ["aa"; ""; "b"]).1 !! address_of 2 = Some 2 ∧
  ∃ testKey, testKey ∈ ["aa"; ""; "b"] ∧ HexToPrivKey testKey = (2, None) ∧
             PubkeyToAddress 2 = address_of 2.
Proof.
  split; [exact Examples.api2_known_2|].
  exact (loadTestAccounts_sound ["aa"; ""; "b"] (address_of 2) 2 Examples.api2_known_2).
Defined.

Lemma loadTestAccounts_complete_witness :
  is_Some ((loadTestAccounts ["aa"; ""; "b"]).1 !! address_of 1).
Proof.
  refine (loadTestAccounts_complete ["aa"; ""; "b"] "b" 1 _ eq_refl).
  apply elem_of_cons. right. apply elem_of_cons. right. apply elem_of_cons. by left.
Defined.

Lemma Accounts_lists_registry_witness :
  range_order api2 [address_of 2; address_of 1] ∧
  length (Accounts api2 [address_of 2; address_of 1]).1 = size (accounts api2).
Proof.
  split; [exact Examples.range_order_api2_a|].
  exact (proj2 (proj2 (Accounts_lists_registry api2 _ Examples.range_order_api2_a))).
Defined.

Lemma address_of_3_unlisted :
  address_of 3 ∉ (Accounts api2 [address_of 2; address_of 1]).1.
Proof.
  change (address_of 3 ∉ [address_of 1; address_of 2]).
  intros H. apply elem_of_cons in H as [H|H].
  { by apply Examples.address_of_3_1. }
  apply elem_of_cons in H as [H|H].
  { by apply Examples.address_of_3_2. }
  by apply elem_of_nil in H.
Qed.

Lemma Accounts_are_the_signers_witness :
  range_order api2 [address_of 2; address_of 1] ∧
  run (stub_backend healthy) (SendTransaction api2 (send_from (address_of 3))) tt =
    (Returned (zeroHash,
       Some (errors_New ("unknown account: " +:+ Hex (address_of 3)))), [], tt).
Proof.
  split; [exact Examples.range_order_api2_a|].
  exact (proj1 (Accounts_are_the_signers api2 [address_of 2; address_of 1]
                  (send_from (address_of 3)) (stub_backend healthy) tt
                  Examples.range_order_api2_a) address_of_3_unlisted).
Defined.

Lemma less_strict_total_order_witness :
  less (address_of 1) (address_of 2) = true ∧
  less (address_of 2) (address_of 1) = false.
Proof.
  split; [reflexivity|].
  exact (proj1 (proj2 (proj2 less_strict_total_order))
           (address_of 1) (address_of 2) eq_refl).
Defined.

Lemma block_not_found_is_null_witness :
  result (stub_backend no_block) (GetBlockByHash zeroHash true) tt = Returned (None, None) ∧
  result (stub_backend no_block) (GetBlockByNumber 9 true) tt = Returned (None, None).
Proof.
  destruct (block_not_found_is_null (stub_backend no_block) tt true) as [Hh Hn].
  split.
  - exact (f_equal (fun r => r.1.1) (Hh zeroHash None eq_refl)).
  - exact (f_equal (fun r => r.1.1) (Hn 9 None eq_refl)).
Defined.

Lemma GetBlockByHash_expansion_witness :
  calls (stub_backend healthy) (GetBlockByHash zeroHash true) tt =
    [called (backend_BlockByHash zeroHash); called (backend_GetTxListByHeight 7)] ∧
  result (stub_backend healthy) (GetBlockByHash zeroHash true) tt =
    Returned (Some (block7, [11; 12]), None).
Proof.
  destruct (GetBlockByHash_expansion (stub_backend healthy) tt zeroHash block7 eq_refl)
    as (_ & Hcalls & Hok & _).
  split; [exact Hcalls|exact (Hok [11; 12] eq_refl)].
Defined.

Lemma GetBlockByNumber_expansion_witness :
  calls (stub_backend broken) (GetBlockByNumber 7 false) tt =
    [called (backend_BlockByNumber 7)] ∧
  result (stub_backend healthy) (GetBlockByNumber 7 true) tt =
    Returned (Some (block7, [11; 12]), None).
Proof.
  split; [reflexivity|].
  destruct (GetBlockByNumber_expansion (stub_backend healthy) tt 7 block7 eq_refl)
    as (_ & _ & Hok & _).
  exact (Hok [11; 12] eq_refl).
Defined.

Lemma getTxByIdx_in_bounds_witness :
  ∃ txHash,
    Transactions block7 !! 1%nat = Some txHash ∧
    calls (stub_backend healthy) (getTxByIdx (Some block7) 1) tt =
      [called (backend_GetTransaction txHash)].
Proof.
  destruct (getTxByIdx_in_bounds (stub_backend healthy) tt block7 1) as [_ Hin].
  destruct Hin as (txHash & Hl & Hrun); [simpl; lia|].
  exists txHash. split; [exact Hl|].
  exact (f_equal (fun r => r.1.2) Hrun).
Defined.

Lemma count_bounds_the_indices_witness :
  ∃ n, result (stub_backend healthy) (GetBlockTransactionCountByHash zeroHash) tt
         = Returned (Some n) ∧ n = 2 ∧
       calls (stub_backend healthy) (GetTransactionByBlockHashAndIndex zeroHash 2) tt
         = [called (backend_BlockByHash zeroHash)].
Proof.
  destruct (count_bounds_the_indices (stub_backend healthy) tt zeroHash block7 2 eq_refl)
    as (n & Hn & Hlen & _ & Hout).
  exists n. split; [exact Hn|]. split; [exact Hlen|].
  apply Hout. rewrite Hlen. simpl. lia.
Defined.

Lemma SendRawTransaction_submits_verbatim_witness :
  @DecodeTx lib2 [x05] =
    (Some (NewTransaction 5 zeroAddress 0 DefaultRPCGasLimit DefaultGasPrice []), None) ∧
  @result lib2 _ (stub_backend healthy2) (SendRawTransaction [x05]) tt =
    Returned (@tx_Hash lib2
                (NewTransaction 5 zeroAddress 0 DefaultRPCGasLimit DefaultGasPrice []),
              None) ∧
  @calls lib2 _ (stub_backend healthy2) (SendRawTransaction []) tt = [].
Proof.
  split; [reflexivity|]. split.
  - exact (proj2 (proj2 (@SendRawTransaction_submits_verbatim lib2
                           (stub_backend healthy2) tt [x05]))
             _ zeroHash eq_refl eq_refl).
  - exact (proj1 (@SendRawTransaction_submits_verbatim lib2
                    (stub_backend healthy2) tt [])
             None _ eq_refl).
Defined.

Lemma api_one_known_2 : accounts api_one !! address_of 2 = Some 2.
Proof. apply lookup_insert_eq. Qed.

Lemma SendTransaction_submits_only_signed_witness :
  (@EncodeTx lib2 (@createGethTxFromSendTxArgs lib2
                     (send_with_nonce (address_of 2) 300)).1).2 ≠ None ∧
  Forall (fun c => @is_SendRawTx lib2 c = false)
    (@calls lib2 _ (stub_backend healthy2)
       (SendTransaction api_one (send_with_nonce (address_of 2) 300)) tt).
Proof.
  split; [discriminate|].
  refine (proj2 (@SendTransaction_submits_only_signed lib2 api_one
                   (send_with_nonce (address_of 2) 300) (stub_backend healthy2) tt)
            2 api_one_known_2 _ _).
  - by eexists.
  - right. right. discriminate.
Defined.

Lemma SendTransaction_given_nonce_witness :
  Forall (fun c => is_GetNonce c = false)
    (calls (stub_backend healthy)
       (SendTransaction api2 (send_with_nonce (address_of 2) 8)) tt).
Proof.
  refine (SendTransaction_given_nonce api2 (send_with_nonce (address_of 2) 8)
            (stub_backend healthy) tt _).
  by eexists.
Defined.

Lemma SendTransaction_pipeline_witness :
  calls (stub_backend healthy) (SendTransaction api2 (send_from (address_of 2))) tt =
    [called (backend_GetNonce (address_of 2)); called backend_ChainId;
     called (backend_SendRawTx [])] ∧
  result (stub_backend healthy) (SendTransaction api2 (send_from (address_of 2))) tt =
    Returned (zeroHash, None).
Proof.
  destruct (SendTransaction_pipeline api2 (send_from (address_of 2))
              (stub_backend healthy) tt 2 3
              (Some (NewTransaction 3 zeroAddress 0 DefaultRPCGasLimit DefaultGasPrice []))
              (NewTransaction 3 zeroAddress 0 DefaultRPCGasLimit DefaultGasPrice [])
              [] zeroHash
              Examples.api2_known_2 eq_refl eq_refl eq_refl eq_refl eq_refl eq_refl)
    as [Hres Hcalls].
  split; [exact Hcalls|exact Hres].
Defined.


Definition busy : Debug.Runtime :=
  {| Debug.rt_NumGoroutine := 12; Debug.rt_NumGC := 4;
     Debug.rt_Alloc := 3 * 1048576 + 17; Debug.rt_Sys := 70000000 |}.

Definition quiet : Debug.Runtime :=
  {| Debug.rt_NumGoroutine := 2; Debug.rt_NumGC := 5;
     Debug.rt_Alloc := 1048575; Debug.rt_Sys := 70000000 |}.

Lemma GetStats_interval_witness :
  Debug.GetStats 60 busy Debug.newDebugAPI =
    (Debug.stats Debug.newDebugAPI, Debug.newDebugAPI) ∧
  Debug.MemAllocMB (Debug.GetStats 1700000000 busy Debug.newDebugAPI).1 = 3.
Proof.
  assert (- 2 ^ 63 ≤ Debug.lastUpdateTime Debug.newDebugAPI + 60 < 2 ^ 63) as Hfit
    by (simpl; lia).
  split.
  - refine (proj1 (DebugFacts.GetStats_interval 60 busy Debug.newDebugAPI Hfit) _).
    simpl. lia.
  - refine (f_equal (fun r => Debug.MemAllocMB r.1)
              (proj2 (DebugFacts.GetStats_interval 1700000000 busy Debug.newDebugAPI Hfit) _)).
    simpl. lia.
Defined.

Lemma GetStats_twice_witness :
  let '(stats1, api1) := Debug.GetStats 1700000000 busy Debug.newDebugAPI in
  Debug.GetStats 1700000060 quiet api1 = (stats1, api1).
Proof.
  refine (DebugFacts.GetStats_twice 1700000000 1700000060 busy quiet Debug.newDebugAPI
            _ _ _ _); simpl; lia.
Defined.


Lemma updateStats_megabytes_witness :
  Debug.MemAllocMB (Debug.stats (Debug.updateStats quiet Debug.newDebugAPI)) * 2 ^ 20
    ≤ 1048575
    < (Debug.MemAllocMB (Debug.stats (Debug.updateStats quiet Debug.newDebugAPI)) + 1) * 2 ^ 20.
Proof.
  refine (proj1 (DebugFacts.updateStats_megabytes quiet Debug.newDebugAPI _ _));
    simpl; lia.
Defined.

End MoreExamples.
